(** * s5-commander: run-cycle orchestration and result reconciliation

    A shallow embedding of [main.go]: the per-record reconciliation of
    [parseAndCleanup], the line reader it sits on, the empty-match check of
    [checkForNoMatchError], [processFiles], the command built by
    [runS5cmd], and the scheduler loop of [main].

    Conventions.
    - Go [string] is [string]; Go [[]byte] is [list Byte.byte].
    - Go [int] and [int64] are [Z] with two's-complement wrap-around written
      out ([int_add], [int64_add]); [int] is taken at 64 bits.
    - The local file system is a finite map from path to a flag that says
      whether [os.Remove] succeeds on that entry; two paths are the same
      file only when they are the same string.
    - The sink file is what [os.Open] and sequential reads make of it
      ([file_view]); the external tool and the clock are inputs: the results
      of [runS5cmd] per tick, and the order in which the [select] of [main]
      takes its cases.
    - [encoding/json] is not part of the program: the two decoders are
      section variables, and [RefJSON] gives one executable instance.
    - [path/filepath] is modelled for a Unix target.

    The first part holds the definitions, the second the properties. *)

From Stdlib Require Import ZArith Lia Ascii String List Permutation.
From stdpp Require Import gmap strings list.
From Equations Require Import Equations.
Import ListNotations.
Local Open Scope Z_scope.
Set Warnings "-register-all".

(** ** Machine integers *)

Definition wrap (bits : Z) (z : Z) : Z :=
  (z + 2 ^ (bits - 1)) mod 2 ^ bits - 2 ^ (bits - 1).

Definition intSize : Z := 64.
Definition int_add (a b : Z) : Z := wrap intSize (a + b).
Definition int64_add (a b : Z) : Z := wrap 64 (a + b).
Definition int_min : Z := - 2 ^ (intSize - 1).
Definition int_max : Z := 2 ^ (intSize - 1) - 1.
Definition in_int (z : Z) : Prop := int_min <= z <= int_max.
(** [len(s)] of a slice, as an [int]. *)
Definition len {A} (l : list A) : Z := Z.of_nat (length l).

(** ** Data model *)

(** [JobResult.Object] *)
Record JobObject := mkJobObject {
  Type_ : string;
  Size : Z
}.

Record JobResult := mkJobResult {
  Operation : string;
  Success : bool;
  Source : string;
  Destination : string;
  Object : JobObject
}.

Record Summary := mkSummary {
  FilesTransferred : Z;
  FilesDeleted : Z;
  TotalBytes : Z;
  FilesFailed : list string
}.

(** [Summary{}] *)
Definition Summary_zero : Summary := mkSummary 0 0 0 [].

Inductive error :=
| PathError (op path : string)          (* from [os.Remove], [os.Open], [os.Create] *)
| ReadError                             (* a failed read of the sink *)
| ExitError (code : Z)                  (* from [cmd.Run] *)
| UUIDError
| ErrJobID (e : error)                  (* "error generating job ID: %v" *)
| ErrRunS5cmd (e : error)               (* "error running s5cmd for job %s: %w" *)
| ErrParseCleanup (e : error)           (* "error parsing results and cleaning up for job %s: %w" *)
| ErrOpenResult (e : error)             (* "error opening job result file: %w" *)
| ErrReadResult (e : error)             (* "error reading job result file: %w" *)
| ErrOpenOutput (e : error)             (* "could not open output file: %w" *)
| ErrReadOutput (e : error).            (* "could not read output file: %w" *)

(** ** Local file system and [os.Remove]

    [fs !! p = Some true]: [p] names an entry that [os.Remove] removes;
    [Some false]: the entry exists and its removal fails (permission denied,
    non-empty directory); [None]: no such entry. *)

Definition os_Remove (fs : gmap string bool) (name : string)
  : gmap string bool * option error :=
  match fs !! name with
  | Some true => (delete name fs, None)
  | _ => (fs, Some (PathError "remove" name))
  end.

(** A path that named an entry in [fs] and names none in [fs']. *)
Definition deleted (fs fs' : gmap string bool) (p : string) : Prop :=
  is_Some (fs !! p) /\ fs' !! p = None.

(** ** Reconciliation: the body of the loop of [parseAndCleanup] *)

(** The condition of line 426. *)
Definition actionable (result : JobResult) : bool :=
  String.eqb (Operation result) "cp"
  && Success result
  && String.eqb (Type_ (Object result)) "file".

Definition reconcile_record (st : gmap string bool * Summary) (result : JobResult)
  : gmap string bool * Summary :=
  let '(fs, summary) := st in
  if actionable result then
    let transferred := int_add (FilesTransferred summary) 1 in
    let bytes := int64_add (TotalBytes summary) (Size (Object result)) in
    let filePathToDelete := Source result in
    match os_Remove fs filePathToDelete with
    | (fs', Some _) =>
        (fs', mkSummary transferred (FilesDeleted summary) bytes
                (FilesFailed summary ++ [filePathToDelete]))
    | (fs', None) =>
        (fs', mkSummary transferred (int_add (FilesDeleted summary) 1) bytes
                (FilesFailed summary))
    end
  else st.

(** One pass over an already decoded record sequence. *)
Definition reconcile (results : list JobResult) (st : gmap string bool * Summary)
  : gmap string bool * Summary :=
  fold_left reconcile_record results st.

Definition reconcile_pass (fs : gmap string bool) (results : list JobResult)
  : gmap string bool * Summary :=
  reconcile results (fs, Summary_zero).

(** ** [strings.Contains] *)

Fixpoint strings_Contains (s substr : string) : bool :=
  String.prefix substr s
  || match s with
     | EmptyString => false
     | String _ s' => strings_Contains s' substr
     end.

(** ** The sink file, as [os.Open] and sequential reads see it *)

Inductive read_end :=
| EOF
| Failing (e : error).

Inductive file_view :=
| NotExist
| OpenFails (e : error)
| Readable (data : list Byte.byte) (last : read_end).

Definition newline : Byte.byte := Byte.x0a.

(** [bufio.Reader.ReadBytes]: the bytes up to and including the first
    [delim] and what is left to read, or, when the input ends first, all
    the bytes read and no rest (the caller then sees [io.EOF] or the read
    error of the file). *)
Fixpoint ReadBytes (delim : Byte.byte) (input : list Byte.byte)
  : list Byte.byte * option (list Byte.byte) :=
  match input with
  | [] => ([], None)
  | b :: rest =>
      if Byte.eqb b delim then ([b], Some rest)
      else let '(line, r) := ReadBytes delim rest in (b :: line, r)
  end.

(** The newline-terminated lines of [input], each with its newline, in
    order; [cur] is the part already read of the line in progress. What
    follows the last newline is not a line. *)
Fixpoint lines_from (cur input : list Byte.byte) : list (list Byte.byte) :=
  match input with
  | [] => []
  | b :: rest =>
      if Byte.eqb b newline then (cur ++ [b]) :: lines_from [] rest
      else lines_from (cur ++ [b]) rest
  end.

Definition complete_lines (input : list Byte.byte) : list (list Byte.byte) :=
  lines_from [] input.

(** ** [path/filepath] on a Unix target ([os.PathSeparator] is '/') *)

Definition Separator : ascii := "/"%char.

(** [strings.Split(s, "/")] *)
Fixpoint split_sep (s : string) : list string :=
  match s with
  | EmptyString => [EmptyString]
  | String c s' =>
      if Ascii.eqb c Separator then EmptyString :: split_sep s'
      else match split_sep s' with
           | h :: t => String c h :: t
           | [] => [String c EmptyString]
           end
  end.

(** [strings.Join(elems, "/")] *)
Fixpoint join_sep (elems : list string) : string :=
  match elems with
  | [] => EmptyString
  | [e] => e
  | e :: rest => e +:+ String Separator (join_sep rest)
  end.

(** One path element read by the loop of [filepath.Clean]; [out] is the
    output so far as a stack of elements, last written first. An empty
    element and "." are skipped; ".." removes the last element when there is
    one to remove, is dropped at the root, and is kept in front of a path
    that is not rooted; any other element is appended. *)
Definition clean_elem (rooted : bool) (out : list string) (e : string) : list string :=
  if String.eqb e EmptyString then out
  else if String.eqb e "." then out
  else if String.eqb e ".." then
    match out with
    | top :: out' => if String.eqb top ".." then e :: out else out'
    | [] => if rooted then [] else [e]
    end
  else e :: out.

Definition is_rooted (path : string) : bool :=
  match path with
  | String c _ => Ascii.eqb c Separator
  | EmptyString => false
  end.

(** [filepath.Clean] *)
Definition filepath_Clean (path : string) : string :=
  if String.eqb path EmptyString then "."
  else
    let rooted := is_rooted path in
    let out := fold_left (clean_elem rooted) (split_sep path) [] in
    let body := join_sep (rev out) in
    if rooted then String Separator body
    else if String.eqb body EmptyString then "." else body.

(** [filepath.Join]: leading empty elements are ignored, the rest is joined
    with the separator and cleaned; no non-empty element gives the empty path. *)
Fixpoint filepath_Join (elem : list string) : string :=
  match elem with
  | [] => EmptyString
  | e :: rest =>
      if String.eqb e EmptyString then filepath_Join rest
      else filepath_Clean (join_sep elem)
  end.

(** ** [runS5cmd]: the command it builds *)

Definition LogLevel : string := "info".

Record Cmd := mkCmd {
  Path : string;
  Args : list string;
  Env : list string
}.

(** Lines 276-278. *)
Definition strip_leading_sep (pathSuffix : string) : string :=
  match pathSuffix with
  | String c rest => if Ascii.eqb c Separator then rest else pathSuffix
  | EmptyString => pathSuffix
  end.

Definition srcPath_of (folderPrefix pathSuffix : string) : string :=
  let pathSuffix := strip_leading_sep pathSuffix in
  filepath_Join [folderPrefix; pathSuffix].

(** [environ] is [os.Environ()] and [getenv] is [os.Getenv]. *)
Definition runS5cmd_command
    (environ : list string) (getenv : string -> string)
    (folderPrefix awsEndpointURL s3BucketPath awsCredsFile awsProfile
       pathSuffix s5cmdBinary : string)
    (hasAwsEnvCreds : bool) : Cmd :=
  let srcPath := srcPath_of folderPrefix pathSuffix in
  let destPath := s3BucketPath in
  let cmdArguments := ["--json"; "--log"; LogLevel] in
  let cmdArguments :=
    if negb (String.eqb awsEndpointURL EmptyString)
    then cmdArguments ++ ["--endpoint-url"; awsEndpointURL]
    else cmdArguments in
  let cmdArguments :=
    if hasAwsEnvCreds then cmdArguments ++ ["cp"; srcPath; destPath]
    else cmdArguments ++ ["--credentials-file"; awsCredsFile;
                          "--profile"; awsProfile; "cp"; srcPath; destPath] in
  let env :=
    if hasAwsEnvCreds then
      environ ++ ["AWS_ACCESS_KEY_ID=" +:+ getenv "AWS_ACCESS_KEY_ID";
                  "AWS_SECRET_ACCESS_KEY=" +:+ getenv "AWS_SECRET_ACCESS_KEY";
                  "AWS_DEFAULT_REGION=" +:+ getenv "AWS_DEFAULT_REGION"]
    else environ in
  mkCmd s5cmdBinary cmdArguments env.

(** ** The scheduler loop of [main] *)

(** [1 * time.Minute], in nanoseconds: a [time.Duration] is an [int64]. *)
Definition loggingInterval : Z := 60 * 1000000000.

(** Lines 157-160 for a window [window]; Go's [/] truncates toward zero and
    panics on a zero divisor ([None]). *)
Definition runsPerLog_of (window actualProcessInterval : Z) : option Z :=
  if actualProcessInterval =? 0 then None
  else
    let runsPerLog := wrap intSize (wrap 64 (Z.quot window actualProcessInterval)) in
    Some (if runsPerLog <? 1 then 1 else runsPerLog).

(** [time.NewTicker] panics unless the period is positive. *)
Definition NewTicker (d : Z) : option Z :=
  if 0 <? d then Some d else None.

Record Config := mkConfig {
  netdataEnabled : bool;
  runsPerLog : Z
}.

(** What [main] computes before it enters the loop; [None] is a panic. *)
Definition main_setup (actualNetdataEnabled : bool) (actualProcessInterval : Z)
  : option Config :=
  match runsPerLog_of loggingInterval actualProcessInterval with
  | None => None
  | Some n =>
      match NewTicker actualProcessInterval with
      | None => None
      | Some _ => Some (mkConfig actualNetdataEnabled n)
      end
  end.

Record LoopState := mkLoopState {
  accumulatedSummary : Summary;
  runCounter : Z
}.

Definition LoopState_init : LoopState := mkLoopState Summary_zero 0.

(** Lines 221-224. *)
Definition accumulate (into from : Summary) : Summary :=
  mkSummary (int_add (FilesTransferred into) (FilesTransferred from))
            (int_add (FilesDeleted into) (FilesDeleted from))
            (int64_add (TotalBytes into) (TotalBytes from))
            (FilesFailed into ++ FilesFailed from).

(** What the loop does to the outside. The two summary lines carry the
    numbers they print ([TotalBytes] before its conversion to megabytes). *)
Inductive Effect :=
| LogProcessError (e : error)
| CallSendToNetdata (summary : Summary) (runCount : Z)
| LogNetdataError (e : error)
| LogSummary (runs transferred deleted bytes failed : Z)
| LogShutdownSignal
| CallSendShutdownMetrics (summary : Summary) (totalRuns : Z)
| LogFinalMetricsError (e : error)
| LogFinalMetricsSent
| LogFinalSummary (transferred deleted bytes failed runs : Z)
| LogShutdownComplete.

(** The two cases of the [select]: [ticker.C] fires, with what
    [processFiles] returns on that tick and what [sendToNetdata] would
    return; or [ctx.Done()] is ready, with what [sendShutdownMetrics] would
    return. *)
Inductive Event :=
| Tick (result : Summary * option error) (netdataErr : option error)
| Done (netdataErr : option error).

Definition has_data (st : LoopState) : bool :=
  (0 <? FilesTransferred (accumulatedSummary st)) || (0 <? runCounter st).

(** Lines 199-244. *)
Definition on_tick (cfg : Config) (st : LoopState)
    (result : Summary * option error) (netdataErr : option error)
  : list Effect * LoopState :=
  let '(summary, err) := result in
  let logErr := match err with Some e => [LogProcessError e] | None => [] end in
  let metrics :=
    if netdataEnabled cfg then
      CallSendToNetdata summary 1
        :: match netdataErr with Some e => [LogNetdataError e] | None => [] end
    else [] in
  let acc := accumulate (accumulatedSummary st) summary in
  let counter := int_add (runCounter st) 1 in
  if runsPerLog cfg <=? counter then
    let report :=
      if 0 <? FilesTransferred acc then
        [LogSummary counter (FilesTransferred acc) (FilesDeleted acc)
                    (TotalBytes acc) (len (FilesFailed acc))]
      else [] in
    (logErr ++ metrics ++ report, mkLoopState Summary_zero 0)
  else (logErr ++ metrics, mkLoopState acc counter).

(** Lines 171-197; the second component is the exit status of the process
    when [main] returns. *)
Definition on_done (cfg : Config) (st : LoopState) (netdataErr : option error)
  : list Effect * Z :=
  let acc := accumulatedSummary st in
  let metrics :=
    if netdataEnabled cfg && has_data st then
      [CallSendShutdownMetrics acc (runCounter st);
       match netdataErr with
       | Some e => LogFinalMetricsError e
       | None => LogFinalMetricsSent
       end]
    else [] in
  let final :=
    if has_data st then
      [LogFinalSummary (FilesTransferred acc) (FilesDeleted acc)
                       (TotalBytes acc) (len (FilesFailed acc)) (runCounter st)]
    else [] in
  ([LogShutdownSignal] ++ metrics ++ final ++ [LogShutdownComplete], 0).

(** The [for { select { ... } }] loop over the events the [select] takes, in
    order. It ends ([inr status]) at the first [Done]; with no [Done] it is
    still waiting ([inl] of its state). *)
Fixpoint main_loop (cfg : Config) (st : LoopState) (events : list Event)
  : list Effect * (LoopState + Z) :=
  match events with
  | [] => ([], inl st)
  | Tick result netdataErr :: rest =>
      let '(eff, st') := on_tick cfg st result netdataErr in
      let '(eff', fin) := main_loop cfg st' rest in
      (eff ++ eff', fin)
  | Done netdataErr :: _ =>
      let '(eff, status) := on_done cfg st netdataErr in
      (eff, inr status)
  end.

(** The loop over ticks only: [ts] lists, for each tick, what
    [processFiles] and [sendToNetdata] return. *)
Fixpoint run_ticks (cfg : Config) (st : LoopState)
    (ts : list (Summary * option error * option error))
  : list Effect * LoopState :=
  match ts with
  | [] => ([], st)
  | (result, netdataErr) :: rest =>
      let '(eff, st') := on_tick cfg st result netdataErr in
      let '(eff', st'') := run_ticks cfg st' rest in
      (eff ++ eff', st'')
  end.

Definition ticks_of (ts : list (Summary * option error * option error)) : list Event :=
  map (fun t => Tick (fst t) (snd t)) ts.

Definition is_periodic_summary (e : Effect) : bool :=
  match e with LogSummary _ _ _ _ _ => true | _ => false end.

Definition is_final_summary (e : Effect) : bool :=
  match e with LogFinalSummary _ _ _ _ _ => true | _ => false end.

Definition is_shutdown_metrics (e : Effect) : bool :=
  match e with CallSendShutdownMetrics _ _ => true | _ => false end.

(** ** A reference JSON decoder

    An executable instance of the two decoders the program takes from
    [encoding/json], for the JSON that s5cmd writes: objects, arrays,
    strings with the single-character escapes, integers, [true], [false]
    and [null]. Outside that subset (a [\u] escape, a fraction or an
    exponent) it reports an error. Keys are matched the way [encoding/json]
    matches them, ignoring ASCII case, unknown keys are ignored, [null]
    leaves a field as it is, and a value of the wrong type is an error.
    The theorems below hold for any decoder; this one serves to run the
    program on concrete sinks. *)

Module RefJSON.

Inductive json :=
| JNull
| JBool (b : bool)
| JNum (z : Z)
| JStr (s : string)
| JArr (elems : list json)
| JObj (members : list (string * json)).

Definition is_ws (c : ascii) : bool :=
  Ascii.eqb c " " || Ascii.eqb c "009" || Ascii.eqb c "010" || Ascii.eqb c "013".

Fixpoint skip_ws (s : string) : string :=
  match s with
  | String c s' => if is_ws c then skip_ws s' else s
  | EmptyString => s
  end.

Definition unescape (c : ascii) : option ascii :=
  if Ascii.eqb c "034" then Some "034"%char
  else if Ascii.eqb c "\" then Some "\"%char
  else if Ascii.eqb c "/" then Some "/"%char
  else if Ascii.eqb c "b" then Some "008"%char
  else if Ascii.eqb c "f" then Some "012"%char
  else if Ascii.eqb c "n" then Some "010"%char
  else if Ascii.eqb c "r" then Some "013"%char
  else if Ascii.eqb c "t" then Some "009"%char
  else None.

(** The rest of a string literal, after its opening quote. *)
Fixpoint parse_string (s : string) : option (string * string) :=
  match s with
  | EmptyString => None
  | String c rest =>
      if Ascii.eqb c "034" then Some (EmptyString, rest)
      else if Ascii.eqb c "\" then
        match rest with
        | String e rest' =>
            match unescape e, parse_string rest' with
            | Some c', Some (body, after) => Some (String c' body, after)
            | _, _ => None
            end
        | EmptyString => None
        end
      else if (nat_of_ascii c <? 32)%nat then None
      else match parse_string rest with
           | Some (body, after) => Some (String c body, after)
           | None => None
           end
  end.

Definition digit_of (c : ascii) : option Z :=
  let n := Z.of_nat (nat_of_ascii c) in
  if (48 <=? n) && (n <=? 57) then Some (n - 48) else None.

Fixpoint parse_digits (acc : Z) (s : string) : Z * string :=
  match s with
  | String c rest =>
      match digit_of c with
      | Some d => parse_digits (10 * acc + d) rest
      | None => (acc, s)
      end
  | EmptyString => (acc, s)
  end.

Definition starts_fraction (s : string) : bool :=
  match s with
  | String c _ => Ascii.eqb c "." || Ascii.eqb c "e" || Ascii.eqb c "E"
  | EmptyString => false
  end.

(** An integer literal without its sign: a single 0, or digits that do not
    start with 0. *)
Definition parse_nat (s : string) : option (Z * string) :=
  match s with
  | String c rest =>
      match digit_of c with
      | Some 0 => if starts_fraction rest then None
                  else match rest with
                       | String c' _ => match digit_of c' with
                                        | Some _ => None
                                        | None => Some (0, rest)
                                        end
                       | EmptyString => Some (0, rest)
                       end
      | Some d => let '(n, after) := parse_digits d rest in
                  if starts_fraction after then None else Some (n, after)
      | None => None
      end
  | EmptyString => None
  end.

Definition expect (lit : string) (v : json) (s : string) : option (json * string) :=
  if String.prefix lit s
  then Some (v, String.substring (String.length lit)
                                 (String.length s - String.length lit) s)
  else None.

Fixpoint parse_value (fuel : nat) (s : string) : option (json * string) :=
  match fuel with
  | O => None
  | S fuel =>
      match skip_ws s with
      | String c rest =>
          if Ascii.eqb c "{" then
            match skip_ws rest with
            | String c' rest' =>
                if Ascii.eqb c' "}" then Some (JObj [], rest')
                else match parse_members fuel (skip_ws rest) with
                     | Some (ms, after) => Some (JObj ms, after)
                     | None => None
                     end
            | EmptyString => None
            end
          else if Ascii.eqb c "[" then
            match skip_ws rest with
            | String c' rest' =>
                if Ascii.eqb c' "]" then Some (JArr [], rest')
                else match parse_elems fuel rest with
                     | Some (vs, after) => Some (JArr vs, after)
                     | None => None
                     end
            | EmptyString => None
            end
          else if Ascii.eqb c "034" then
            match parse_string rest with
            | Some (str, after) => Some (JStr str, after)
            | None => None
            end
          else if Ascii.eqb c "-" then
            match parse_nat rest with
            | Some (n, after) => Some (JNum (- n), after)
            | None => None
            end
          else if Ascii.eqb c "t" then expect "true" (JBool true) (String c rest)
          else if Ascii.eqb c "f" then expect "false" (JBool false) (String c rest)
          else if Ascii.eqb c "n" then expect "null" JNull (String c rest)
          else match parse_nat (String c rest) with
               | Some (n, after) => Some (JNum n, after)
               | None => None
               end
      | EmptyString => None
      end
  end
(** The members of an object after its opening brace, to the closing one. *)
with parse_members (fuel : nat) (s : string) : option (list (string * json) * string) :=
  match fuel with
  | O => None
  | S fuel =>
      match s with
      | String q rest =>
          if Ascii.eqb q "034" then
            match parse_string rest with
            | Some (key, after) =>
                match skip_ws after with
                | String colon after' =>
                    if Ascii.eqb colon ":" then
                      match parse_value fuel after' with
                      | Some (v, after'') =>
                          match skip_ws after'' with
                          | String d tail =>
                              if Ascii.eqb d "}" then Some ([(key, v)], tail)
                              else if Ascii.eqb d "," then
                                match parse_members fuel (skip_ws tail) with
                                | Some (ms, fin) => Some ((key, v) :: ms, fin)
                                | None => None
                                end
                              else None
                          | EmptyString => None
                          end
                      | None => None
                      end
                    else None
                | EmptyString => None
                end
            | None => None
            end
          else None
      | EmptyString => None
      end
  end
(** The elements of an array after its opening bracket, to the closing one. *)
with parse_elems (fuel : nat) (s : string) : option (list json * string) :=
  match fuel with
  | O => None
  | S fuel =>
      match parse_value fuel s with
      | Some (v, after) =>
          match skip_ws after with
          | String d tail =>
              if Ascii.eqb d "]" then Some ([v], tail)
              else if Ascii.eqb d "," then
                match parse_elems fuel tail with
                | Some (vs, fin) => Some (v :: vs, fin)
                | None => None
                end
              else None
          | EmptyString => None
          end
      | None => None
      end
  end.

(** One JSON value and nothing but white space after it. *)
Definition parse_document (data : list Byte.byte) : option json :=
  let s := String.string_of_list_byte data in
  match parse_value (S (String.length s)) s with
  | Some (v, after) => if String.eqb (skip_ws after) EmptyString then Some v else None
  | None => None
  end.

Definition lower (c : ascii) : ascii :=
  let n := nat_of_ascii c in
  if ((65 <=? n) && (n <=? 90))%nat then ascii_of_nat (n + 32) else c.

Fixpoint fold_case (s : string) : string :=
  match s with
  | String c s' => String (lower c) (fold_case s')
  | EmptyString => EmptyString
  end.

Definition key_is (name key : string) : bool :=
  String.eqb (fold_case key) name.

(** A string field: a string sets it, [null] leaves it, the rest is an error. *)
Definition set_string (old : string) (v : json) : option string :=
  match v with
  | JStr s => Some s
  | JNull => Some old
  | _ => None
  end.

Definition set_bool (old : bool) (v : json) : option bool :=
  match v with
  | JBool b => Some b
  | JNull => Some old
  | _ => None
  end.

Definition set_int64 (old : Z) (v : json) : option Z :=
  match v with
  | JNum z => if (- 2 ^ 63 <=? z) && (z <=? 2 ^ 63 - 1) then Some z else None
  | JNull => Some old
  | _ => None
  end.

Definition set_object_member (o : option JobObject) (m : string * json)
  : option JobObject :=
  match o with
  | None => None
  | Some o =>
      let '(key, v) := m in
      if key_is "type" key then
        match set_string (Type_ o) v with
        | Some s => Some (mkJobObject s (Size o))
        | None => None
        end
      else if key_is "size" key then
        match set_int64 (Size o) v with
        | Some z => Some (mkJobObject (Type_ o) z)
        | None => None
        end
      else Some o
  end.

Definition set_object (old : JobObject) (v : json) : option JobObject :=
  match v with
  | JObj ms => fold_left set_object_member ms (Some old)
  | JNull => Some old
  | _ => None
  end.

Definition set_result_member (r : option JobResult) (m : string * json)
  : option JobResult :=
  match r with
  | None => None
  | Some r =>
      let '(key, v) := m in
      if key_is "operation" key then
        match set_string (Operation r) v with
        | Some s => Some (mkJobResult s (Success r) (Source r) (Destination r) (Object r))
        | None => None
        end
      else if key_is "success" key then
        match set_bool (Success r) v with
        | Some b => Some (mkJobResult (Operation r) b (Source r) (Destination r) (Object r))
        | None => None
        end
      else if key_is "source" key then
        match set_string (Source r) v with
        | Some s => Some (mkJobResult (Operation r) (Success r) s (Destination r) (Object r))
        | None => None
        end
      else if key_is "destination" key then
        match set_string (Destination r) v with
        | Some s => Some (mkJobResult (Operation r) (Success r) (Source r) s (Object r))
        | None => None
        end
      else if key_is "object" key then
        match set_object (Object r) v with
        | Some o => Some (mkJobResult (Operation r) (Success r) (Source r) (Destination r) o)
        | None => None
        end
      else Some r
  end.

(** [var result JobResult] *)
Definition JobResult_zero : JobResult :=
  mkJobResult EmptyString false EmptyString EmptyString (mkJobObject EmptyString 0).

(** [json.Unmarshal(line, &result)]: the decoded record, or [None] for an
    error. *)
Definition Unmarshal_JobResult (line : list Byte.byte) : option JobResult :=
  match parse_document line with
  | Some (JObj ms) => fold_left set_result_member ms (Some JobResult_zero)
  | Some JNull => Some JobResult_zero
  | _ => None
  end.

Definition set_error_member (e : option string) (m : string * json) : option string :=
  match e with
  | None => None
  | Some old =>
      let '(key, v) := m in
      if key_is "error" key then set_string old v else Some old
  end.

(** [json.Unmarshal(data, &s5Error)]: the [Error] field, or [None] for an
    error. *)
Definition Unmarshal_s5Error (data : list Byte.byte) : option string :=
  match parse_document data with
  | Some (JObj ms) => fold_left set_error_member ms (Some EmptyString)
  | Some JNull => Some EmptyString
  | _ => None
  end.

End RefJSON.

(** What the read loop returns as its error when the input is exhausted. *)
Definition read_end_error (last : read_end) : option error :=
  match last with
  | EOF => None
  | Failing e => Some (ErrReadResult e)
  end.

(** A file holds at most [int_max] bytes: its size is an [int64]. *)
Definition file_fits (f : file_view) : Prop :=
  match f with
  | Readable data _ => len data <= int_max
  | _ => True
  end.

(** ** The program over its decoders *)

Section WithDecoders.

(** [json.Unmarshal(line, &result)] with a fresh [result]: the decoded
    record, or [None] when it returns an error. *)
Variable Unmarshal_JobResult : list Byte.byte -> option JobResult.

(** [json.Unmarshal(data, &s5Error)] with a fresh [s5Error]: its [Error]
    field, or [None] when it returns an error. *)
Variable Unmarshal_s5Error : list Byte.byte -> option string.

(** Lines 420-436: one line of the sink. *)
Definition process_line (st : gmap string bool * Summary) (line : list Byte.byte)
  : gmap string bool * Summary :=
  match Unmarshal_JobResult line with
  | None => st
  | Some result => reconcile_record st result
  end.

(** The records decoded from the complete lines of the sink, in order. *)
Definition records_of (data : list Byte.byte) : list JobResult :=
  omap Unmarshal_JobResult (complete_lines data).

(** A value together with the equation that names it, for the recursive
    call of [read_loop]. *)
Definition inspect {A} (a : A) : {b | a = b} := exist _ a eq_refl.

(** Lines 411-437: the read loop, over what is left to read of the sink. *)
Equations? read_loop (input : list Byte.byte) (last : read_end)
    (st : gmap string bool * Summary)
  : gmap string bool * Summary * option error by wf (length input) lt :=
  read_loop input last st with inspect (ReadBytes newline input) := {
    | exist _ (line, None) _ =>
        match last with
        | EOF => (st, None)
        | Failing e => (st, Some (ErrReadResult e))
        end
    | exist _ (line, Some rest) Heq =>
        read_loop rest last (process_line st line) }.
Proof.
  clear read_loop. revert line rest Heq.
  induction input as [|b input IH]; intros line rest; simpl.
  - discriminate.
  - destruct (Byte.eqb b newline).
    + intros [= <- <-]. lia.
    + destruct (ReadBytes newline input) as [l [r|]] eqn:E; intros [= <- <-].
      specialize (IH _ _ eq_refl). lia.
Qed.

(** [parseAndCleanup]; its parameter [folderPrefix] is not used by the
    code and is left out. [jsonOutputFile] is the sink as the file system
    presents it, [fs] the rest of the local file system. *)
Definition parseAndCleanup (fs : gmap string bool) (jsonOutputFile : file_view)
  : gmap string bool * Summary * option error :=
  let summary := Summary_zero in
  match jsonOutputFile with
  | NotExist => (fs, summary, Some (ErrOpenResult (PathError "open" "jsonOutputFile")))
  | OpenFails e => (fs, summary, Some (ErrOpenResult e))
  | Readable data last => read_loop data last (fs, summary)
  end.

Definition checkForNoMatchError (jsonOutputFile : file_view) : bool * option error :=
  match jsonOutputFile with
  | NotExist => (false, None)
  | OpenFails e => (false, Some (ErrOpenOutput e))
  | Readable data (Failing e) => (false, Some (ErrReadOutput e))
  | Readable data EOF =>
      if len data =? 0 then (false, None)
      else match Unmarshal_s5Error data with
           | None => (false, None)
           | Some s5Error_Error =>
               (strings_Contains s5Error_Error "no match found for", None)
           end
  end.

(** [processFiles], given what [uuid.NewRandom] returns, what [runS5cmd]
    returns and the sink file as it is afterwards. The deferred removal of
    the sink is outside [fs], which holds the files under the source
    root. *)
Definition processFiles (fs : gmap string bool)
    (uuidErr : option error) (runErr : option error) (jsonOutputFile : file_view)
  : gmap string bool * Summary * option error :=
  match uuidErr with
  | Some err => (fs, Summary_zero, Some (ErrJobID err))
  | None =>
      match runErr with
      | Some err =>
          let '(isNoMatchError, _) := checkForNoMatchError jsonOutputFile in
          if isNoMatchError then (fs, Summary_zero, None)
          else (fs, Summary_zero, Some (ErrRunS5cmd err))
      | None =>
          match parseAndCleanup fs jsonOutputFile with
          | (fs', summary, Some err) => (fs', Summary_zero, Some (ErrParseCleanup err))
          | (fs', summary, None) => (fs', summary, None)
          end
      end
  end.

End WithDecoders.

(** ** Sample sinks

    The sinks of the examples are written with an apostrophe where the
    JSON has a double quote. *)

Definition sink_bytes (s : string) : list Byte.byte :=
  map (fun c => if Byte.eqb c Byte.x27 then Byte.x22 else c)
      (String.list_byte_of_string s).

Definition sample_record : list Byte.byte :=
  sink_bytes "{'operation':'cp','success':true,'source':'/tmp/a.gz','destination':'s3://b/a.gz','object':{'type':'file','size':1024}}".

Definition sample_no_match : list Byte.byte :=
  sink_bytes "{'error':'no match found for pattern X'}".

Definition sample_other_error : list Byte.byte :=
  sink_bytes "ERROR something went wrong".

(** ** Configuration: [getEnvOrFlag] and the start of [main]

    The environment is a finite map; [os.Getenv] gives the empty string
    for a variable that is not set. *)

Definition os_Getenv (env : gmap string string) (key : string) : string :=
  default EmptyString (env !! key).

Definition getEnvOrFlag (env : gmap string string) (envKey flagValue : string)
  : string :=
  let envValue := os_Getenv env envKey in
  if negb (String.eqb envValue EmptyString) then envValue else flagValue.

(** [ParseDuration] is [time.ParseDuration]: the duration in nanoseconds,
    or [None] for an error. *)
Definition getEnvOrFlagDuration (ParseDuration : string -> option Z)
    (env : gmap string string) (envKey : string) (flagValue : Z) : Z :=
  let envValue := os_Getenv env envKey in
  if negb (String.eqb envValue EmptyString) then
    match ParseDuration envValue with
    | Some duration => duration
    | None => flagValue
    end
  else flagValue.

Definition getEnvOrFlagBool (env : gmap string string) (envKey : string)
    (flagValue : bool) : bool :=
  let envValue := os_Getenv env envKey in
  if negb (String.eqb envValue EmptyString) then
    if String.eqb envValue "true" || String.eqb envValue "1"
       || String.eqb envValue "yes" then true
    else if String.eqb envValue "false" || String.eqb envValue "0"
            || String.eqb envValue "no" then false
    else flagValue
  else flagValue.

(** The values of the flags after [flag.Parse()]. *)
Module Flag.
Record t := mk {
  folderPrefix : string;
  pathSuffix : string;
  processInterval : Z;
  netdataEnabled : bool;
  netdataAddress : string;
  s5cmdBinary : string;
  s3BucketPath : string;
  awsCredsFile : string;
  awsEndpointURL : string;
  awsProfile : string
}.
End Flag.

(** The [actual...] variables of [main] and [hasAwsEnvCreds]. *)
Module Actual.
Record t := mk {
  FolderPrefix : string;
  PathSuffix : string;
  ProcessInterval : Z;
  NetdataEnabled : bool;
  NetdataAddress : string;
  S5cmdBinary : string;
  AwsEndpointURL : string;
  AwsCredsFile : string;
  AwsProfile : string;
  S3BucketPath : string;
  hasAwsEnvCreds : bool
}.
End Actual.

(** Lines 106-123. *)
Definition resolve (ParseDuration : string -> option Z)
    (env : gmap string string) (flags : Flag.t) : Actual.t :=
  Actual.mk
    (getEnvOrFlag env "FOLDER_PREFIX" (Flag.folderPrefix flags))
    (getEnvOrFlag env "PATH_SUFFIX" (Flag.pathSuffix flags))
    (getEnvOrFlagDuration ParseDuration env "PROCESS_INTERVAL"
       (Flag.processInterval flags))
    (getEnvOrFlagBool env "NETDATA_ENABLED" (Flag.netdataEnabled flags))
    (getEnvOrFlag env "NETDATA_ADDRESS" (Flag.netdataAddress flags))
    (getEnvOrFlag env "S5CMD_BINARY" (Flag.s5cmdBinary flags))
    (getEnvOrFlag env "AWS_ENDPOINT_URL" (Flag.awsEndpointURL flags))
    (getEnvOrFlag env "AWS_CREDS_FILE" (Flag.awsCredsFile flags))
    (getEnvOrFlag env "AWS_PROFILE" (Flag.awsProfile flags))
    (getEnvOrFlag env "S3_BUCKET_PATH" (Flag.s3BucketPath flags))
    (negb (String.eqb (os_Getenv env "AWS_ACCESS_KEY_ID") EmptyString)
     && negb (String.eqb (os_Getenv env "AWS_SECRET_ACCESS_KEY") EmptyString)
     && negb (String.eqb (os_Getenv env "AWS_DEFAULT_REGION") EmptyString)).

(** How [main] gets to its loop, or does not: [log.Fatal] on a missing
    bucket path or missing credentials, a panic of the division or of
    [time.NewTicker], or the loop with its configuration. *)
Inductive Startup :=
| FatalNoBucket
| FatalNoCredentials
| Panics
| Running (cfg : Config).

(** Lines 125-164. *)
Definition main_start (ParseDuration : string -> option Z)
    (env : gmap string string) (flags : Flag.t) : Startup :=
  let a := resolve ParseDuration env flags in
  if String.eqb (Actual.S3BucketPath a) EmptyString then FatalNoBucket
  else if String.eqb (Actual.AwsCredsFile a) EmptyString
          && negb (Actual.hasAwsEnvCreds a) then FatalNoCredentials
  else match main_setup (Actual.NetdataEnabled a) (Actual.ProcessInterval a) with
       | None => Panics
       | Some cfg => Running cfg
       end.

(** The command of a tick, as [main] has [processFiles] and [runS5cmd]
    build it from the settings ([os.Environ] is [environ]). *)
Definition tick_command (environ : list string) (env : gmap string string)
    (a : Actual.t) : Cmd :=
  runS5cmd_command environ (os_Getenv env)
    (Actual.FolderPrefix a) (Actual.AwsEndpointURL a) (Actual.S3BucketPath a)
    (Actual.AwsCredsFile a) (Actual.AwsProfile a) (Actual.PathSuffix a)
    (Actual.S5cmdBinary a) (Actual.hasAwsEnvCreds a).

(** ** Path elements

    What [filepath.Clean] does, told on the elements of a path. *)




(** ** More predicates of the statements *)

(** Input made of complete lines only: empty, or ending in a newline. *)
Definition terminated (data : list Byte.byte) : Prop :=
  data = [] \/ exists d, data = d ++ [newline].

(** A complete line: one newline, at its end. *)
Definition is_line (l : list Byte.byte) : Prop :=
  exists body, l = body ++ [newline] /\ newline ∉ body.

(** The sizes of the actionable records, summed. *)
Definition actionable_bytes (results : list JobResult) : Z :=
  fold_right Z.add 0
    (map (fun r => Size (Object r)) (List.filter actionable results)).

(** The summaries of the last [n] ticks of [ts]. *)
Definition last_summaries (n : nat)
    (ts : list (Summary * option error * option error)) : list Summary :=
  map (fun t => fst (fst t)) (drop (length ts - n) ts).

Definition is_netdata_call (e : Effect) : bool :=
  match e with CallSendToNetdata _ _ => true | _ => false end.

(** ** Predicates of the statements *)

(** A record of [results] that confirms [p]: actionable, with source [p]. *)
Definition confirmed (results : list JobResult) (p : string) : Prop :=
  exists r, r ∈ results /\ actionable r = true /\ Source r = p.

(** Deleted plus failed equals transferred, in Go's own arithmetic: the
    equation survives wrap-around. *)
Definition balanced (s : Summary) : Prop :=
  int_add (FilesDeleted s) (len (FilesFailed s)) = FilesTransferred s.

(** The same equation over the integers, for counters that have seen at
    most [n] records. *)
Definition accounted (n : Z) (s : Summary) : Prop :=
  0 <= FilesDeleted s
  /\ FilesDeleted s + len (FilesFailed s) = FilesTransferred s
  /\ FilesTransferred s <= n.


(** No separator in [s]. *)
Fixpoint sep_free (s : string) : bool :=
  match s with
  | EmptyString => true
  | String c s' => negb (Ascii.eqb c Separator) && sep_free s'
  end.

(** A path element as [filepath.Clean] writes them: not empty, no separator. *)
Definition is_elem (e : string) : Prop := e <> EmptyString /\ sep_free e = true.

(** * Properties *)

(** ** Wrap-around arithmetic *)

Lemma wrap_small z : - 2 ^ 63 <= z <= 2 ^ 63 - 1 -> wrap 64 z = z.
Proof.
  intros H. unfold wrap. change (64 - 1) with 63.
  rewrite Z.mod_small; [lia|].
  change (2 ^ 64) with (2 * 2 ^ 63). lia.
Qed.

Lemma wrap_range z : - 2 ^ 63 <= wrap 64 z <= 2 ^ 63 - 1.
Proof.
  unfold wrap. change (64 - 1) with 63.
  pose proof (Z.mod_pos_bound (z + 2 ^ 63) (2 ^ 64) ltac:(lia)) as H.
  change (2 ^ 64) with (2 * 2 ^ 63) in *. lia.
Qed.

Lemma wrap_congr a b : a mod 2 ^ 64 = b mod 2 ^ 64 -> wrap 64 a = wrap 64 b.
Proof.
  intros H. unfold wrap. f_equal.
  rewrite <- (Zplus_mod_idemp_l a), <- (Zplus_mod_idemp_l b). now rewrite H.
Qed.

Lemma wrap_mod a : wrap 64 a mod 2 ^ 64 = a mod 2 ^ 64.
Proof.
  unfold wrap. rewrite Zminus_mod_idemp_l. f_equal. lia.
Qed.

Lemma wrap_add_l a b : wrap 64 (wrap 64 a + b) = wrap 64 (a + b).
Proof.
  apply wrap_congr. rewrite <- Zplus_mod_idemp_l, wrap_mod.
  now rewrite Zplus_mod_idemp_l.
Qed.

Lemma wrap_add_r a b : wrap 64 (a + wrap 64 b) = wrap 64 (a + b).
Proof. rewrite (Z.add_comm a), wrap_add_l. f_equal. lia. Qed.





Lemma int_add_small a b : in_int (a + b) -> int_add a b = a + b.
Proof. unfold in_int, int_min, int_max, int_add, intSize. apply wrap_small. Qed.

(** ** [os.Remove] and one record *)

Lemma os_Remove_ok fs name :
  fs !! name = Some true -> os_Remove fs name = (delete name fs, None).
Proof. unfold os_Remove. now intros ->. Qed.

Lemma os_Remove_fails fs name :
  fs !! name <> Some true ->
  os_Remove fs name = (fs, Some (PathError "remove" name)).
Proof.
  unfold os_Remove. intros H.
  destruct (fs !! name) as [[|]|]; congruence.
Qed.

Lemma actionable_iff result :
  actionable result = true <->
  Operation result = "cp" /\ Success result = true /\ Type_ (Object result) = "file".
Proof.
  unfold actionable. rewrite !andb_true_iff, !String.eqb_eq. tauto.
Qed.

Lemma reconcile_record_skip st result :
  actionable result = false -> reconcile_record st result = st.
Proof. destruct st as [fs s]. unfold reconcile_record. now intros ->. Qed.

Lemma reconcile_record_deleted fs s result :
  actionable result = true -> fs !! Source result = Some true ->
  reconcile_record (fs, s) result =
    (delete (Source result) fs,
     mkSummary (int_add (FilesTransferred s) 1) (int_add (FilesDeleted s) 1)
               (int64_add (TotalBytes s) (Size (Object result))) (FilesFailed s)).
Proof.
  intros Ha Hfs. unfold reconcile_record. now rewrite Ha, os_Remove_ok.
Qed.

Lemma reconcile_record_failed fs s result :
  actionable result = true -> fs !! Source result <> Some true ->
  reconcile_record (fs, s) result =
    (fs,
     mkSummary (int_add (FilesTransferred s) 1) (FilesDeleted s)
               (int64_add (TotalBytes s) (Size (Object result)))
               (FilesFailed s ++ [Source result])).
Proof.
  intros Ha Hfs. unfold reconcile_record. now rewrite Ha, os_Remove_fails.
Qed.

Lemma reconcile_cons r rs st :
  reconcile (r :: rs) st = reconcile rs (reconcile_record st r).
Proof. reflexivity. Qed.

Lemma reconcile_app rs1 rs2 st :
  reconcile (rs1 ++ rs2) st = reconcile rs2 (reconcile rs1 st).
Proof. apply fold_left_app. Qed.

Lemma reconcile_snoc rs r st :
  reconcile (rs ++ [r]) st = reconcile_record (reconcile rs st) r.
Proof. now rewrite reconcile_app. Qed.

(** ** What a pass does to the file system *)

Lemma confirmed_cons r results p :
  confirmed (r :: results) p <->
  (actionable r = true /\ Source r = p) \/ confirmed results p.
Proof.
  unfold confirmed. split.
  - intros (r' & Hin & Ha & Hs). apply elem_of_cons in Hin as [->|Hin]; eauto.
  - intros [[Ha Hs]|(r' & Hin & Ha & Hs)].
    + exists r. split; [apply elem_of_cons; auto | auto].
    + exists r'. split; [apply elem_of_cons; auto | auto].
Qed.

Lemma reconcile_lookup_None results : forall fs s p,
  fst (reconcile results (fs, s)) !! p = None <->
  fs !! p = None \/ (fs !! p = Some true /\ confirmed results p).
Proof.
  induction results as [|r results IH]; intros fs s p.
  - simpl. split; [auto|]. intros [H|[_ (r & Hin & _)]]; [auto|].
    now apply elem_of_nil in Hin.
  - rewrite reconcile_cons.
    rewrite confirmed_cons.
    destruct (actionable r) eqn:Ha.
    + destruct (decide (fs !! Source r = Some true)) as [Hok|Hno].
      * rewrite (reconcile_record_deleted _ _ _ Ha Hok), IH.
        destruct (decide (Source r = p)) as [<-|Hne].
        -- rewrite lookup_delete_eq. split; auto.
        -- rewrite (lookup_delete_ne fs _ _ Hne). split.
           ++ intros [H|[H1 H2]]; auto.
           ++ intros [H|[H1 [[_ H2]|H2]]]; auto. congruence.
      * rewrite (reconcile_record_failed _ _ _ Ha Hno), IH. split.
        -- intros [H|[H1 H2]]; auto.
        -- intros [H|[H1 [[_ H2]|H2]]]; auto. subst p. congruence.
    + rewrite (reconcile_record_skip _ _ Ha), IH. split.
      * intros [H|[H1 H2]]; auto.
      * intros [H|[H1 [[H2 _]|H2]]]; auto. congruence.
Qed.

(** A pass only removes entries: what it leaves is as it was. *)
Lemma reconcile_lookup_Some results : forall fs s p b,
  fst (reconcile results (fs, s)) !! p = Some b -> fs !! p = Some b.
Proof.
  induction results as [|r results IH]; intros fs s p b; [auto|].
  rewrite reconcile_cons.
  destruct (actionable r) eqn:Ha.
  - destruct (decide (fs !! Source r = Some true)) as [Hok|Hno].
    + rewrite (reconcile_record_deleted _ _ _ Ha Hok). intros H%IH.
      apply lookup_delete_Some in H. tauto.
    + rewrite (reconcile_record_failed _ _ _ Ha Hno). apply IH.
  - rewrite (reconcile_record_skip _ _ Ha). apply IH.
Qed.

(** C1 as stated fails: a confirmed file whose removal is refused stays. *)
Lemma confirmed_file_not_deleted :
  (mkJobResult "cp" true "/tmp/a.gz" "s3://b/a.gz" (mkJobObject "file" 1024)
     ∈ [mkJobResult "cp" true "/tmp/a.gz" "s3://b/a.gz" (mkJobObject "file" 1024)]
   /\ actionable
        (mkJobResult "cp" true "/tmp/a.gz" "s3://b/a.gz" (mkJobObject "file" 1024))
      = true)
  /\ ~ deleted {[ "/tmp/a.gz" := false ]}
        (fst (reconcile_pass {[ "/tmp/a.gz" := false ]}
                [mkJobResult "cp" true "/tmp/a.gz" "s3://b/a.gz"
                             (mkJobObject "file" 1024)]))
        "/tmp/a.gz".
Proof.
  split.
  - split; [apply list_elem_of_here | reflexivity].
  - intros [_ H]. vm_compute in H. discriminate.
Qed.

(** C4, as amended. A record whose operation is not "cp", or whose success
    flag is false, or whose object type is not "file", leaves every field of
    the summary, and the file system, as they were. *)
Theorem non_actionable_record_is_ignored
    (fs : gmap string bool) (summary : Summary) (result : JobResult) :
  Operation result <> "cp" \/ Success result = false
    \/ Type_ (Object result) <> "file" ->
  reconcile_record (fs, summary) result = (fs, summary).
Proof.
  intros H. apply reconcile_record_skip.
  destruct (actionable result) eqn:Ha; [|reflexivity].
  apply actionable_iff in Ha as (H1 & H2 & H3).
  destruct H as [H|[H|H]]; congruence.
Qed.

Lemma non_actionable_record_is_ignored_witness :
  Operation (mkJobResult "copy" true "/tmp/a.gz" "s3://b/a.gz"
                         (mkJobObject "file" 1024)) <> "cp"
  /\ reconcile_record
       ({[ "/tmp/a.gz" := true ]}, mkSummary 2 1 7 ["/tmp/x.gz"])
       (mkJobResult "copy" true "/tmp/a.gz" "s3://b/a.gz" (mkJobObject "file" 1024))
     = ({[ "/tmp/a.gz" := true ]}, mkSummary 2 1 7 ["/tmp/x.gz"]).
Proof.
  split; [discriminate|].
  apply non_actionable_record_is_ignored. left. discriminate.
Defined.

(** C4 as stated fails: operation "cp" is not "copy", and the record
    changes three fields of the summary. *)
Lemma cp_record_changes_summary :
  Operation (mkJobResult "cp" true "/tmp/a.gz" "s3://b/a.gz"
                         (mkJobObject "file" 1024)) <> "copy"
  /\ snd (reconcile_record
            ({[ "/tmp/a.gz" := true ]}, Summary_zero)
            (mkJobResult "cp" true "/tmp/a.gz" "s3://b/a.gz"
                         (mkJobObject "file" 1024)))
     = mkSummary 1 1 1024 []
  /\ mkSummary 1 1 1024 [] <> Summary_zero.
Proof.
  split; [discriminate|]. split; [reflexivity | discriminate].
Qed.

(** ** Accounting of one pass *)

(** An actionable record is counted once, and then either its file is
    removed and counted as deleted, or the removal fails and its path is
    appended to the failed list: one of the two, never both. *)
Lemma reconcile_record_accounts fs s r :
  actionable r = true ->
  FilesTransferred (snd (reconcile_record (fs, s) r)) = int_add (FilesTransferred s) 1
  /\ TotalBytes (snd (reconcile_record (fs, s) r))
     = int64_add (TotalBytes s) (Size (Object r))
  /\ ((fs !! Source r = Some true
       /\ FilesDeleted (snd (reconcile_record (fs, s) r)) = int_add (FilesDeleted s) 1
       /\ FilesFailed (snd (reconcile_record (fs, s) r)) = FilesFailed s)
      \/ (fs !! Source r <> Some true
          /\ FilesDeleted (snd (reconcile_record (fs, s) r)) = FilesDeleted s
          /\ FilesFailed (snd (reconcile_record (fs, s) r))
             = FilesFailed s ++ [Source r])).
Proof.
  intros Ha. destruct (decide (fs !! Source r = Some true)) as [Hok|Hno].
  - rewrite (reconcile_record_deleted _ _ _ Ha Hok). simpl.
    split; [reflexivity|]. split; [reflexivity|]. left. now repeat split.
  - rewrite (reconcile_record_failed _ _ _ Ha Hno). simpl.
    split; [reflexivity|]. split; [reflexivity|]. right. now repeat split.
Qed.

Lemma len_app {A} (l1 l2 : list A) : len (l1 ++ l2) = len l1 + len l2.
Proof. unfold len. rewrite length_app. lia. Qed.

Lemma balanced_step fs s r :
  balanced s -> balanced (snd (reconcile_record (fs, s) r)).
Proof.
  unfold balanced. intros H. destruct (actionable r) eqn:Ha.
  - destruct (reconcile_record_accounts fs s r Ha)
      as (-> & _ & [(_ & -> & ->)|(_ & -> & ->)]); rewrite <- H;
      unfold int_add, intSize.
    + rewrite !wrap_add_l. f_equal. lia.
    + rewrite len_app, wrap_add_l. f_equal. unfold len. simpl. lia.
  - now rewrite (reconcile_record_skip _ _ Ha).
Qed.

Lemma accounted_step fs s r n :
  accounted n s -> n < int_max -> accounted (n + 1) (snd (reconcile_record (fs, s) r)).
Proof.
  unfold accounted. intros (H0 & He & Hn) Hmax. destruct (actionable r) eqn:Ha.
  - assert (Hlen : 0 <= len (FilesFailed s)) by (unfold len; lia).
    destruct (reconcile_record_accounts fs s r Ha)
      as (-> & _ & [(_ & -> & ->)|(_ & -> & ->)]);
      rewrite ?len_app, !int_add_small;
      unfold in_int, int_min, int_max, intSize, len in *; simpl; lia.
  - rewrite (reconcile_record_skip _ _ Ha). simpl. lia.
Qed.

Lemma balanced_reconcile rs : forall fs s,
  balanced s -> balanced (snd (reconcile rs (fs, s))).
Proof.
  induction rs as [|r rs IH]; intros fs s H; [exact H|].
  rewrite reconcile_cons.
  pose proof (balanced_step fs s r H) as H'.
  destruct (reconcile_record (fs, s) r) as [fs' s']. now apply IH.
Qed.

Lemma accounted_reconcile rs : forall fs s n,
  accounted n s -> n + len rs <= int_max ->
  accounted (n + len rs) (snd (reconcile rs (fs, s))).
Proof.
  induction rs as [|r rs IH]; intros fs s n H Hmax.
  - unfold len. simpl. now rewrite Z.add_0_r.
  - rewrite reconcile_cons.
    assert (Hl : len (r :: rs) = 1 + len rs) by (unfold len; simpl length; lia).
    assert (0 <= len rs) by (unfold len; lia).
    rewrite Hl in *.
    pose proof (accounted_step fs s r n H ltac:(lia)) as H'.
    destruct (reconcile_record (fs, s) r) as [fs' s'].
    replace (n + (1 + len rs)) with (n + 1 + len rs) by lia.
    apply IH; [exact H' | lia].
Qed.

(** ** The read loop *)

Lemma ReadBytes_line input : forall line rest cur,
  ReadBytes newline input = (line, Some rest) ->
  lines_from cur input = (cur ++ line) :: lines_from [] rest.
Proof.
  induction input as [|b input IH]; intros line rest cur; simpl.
  - discriminate.
  - destruct (Byte.eqb b newline).
    + now intros [= <- <-].
    + destruct (ReadBytes newline input) as [l [r|]] eqn:E; intros [= <- <-].
      rewrite (IH _ _ (cur ++ [b]) eq_refl). now rewrite <- app_assoc.
Qed.

Lemma ReadBytes_end input : forall line cur,
  ReadBytes newline input = (line, None) -> lines_from cur input = [].
Proof.
  induction input as [|b input IH]; intros line cur; simpl.
  - reflexivity.
  - destruct (Byte.eqb b newline); [discriminate|].
    destruct (ReadBytes newline input) as [l [r|]] eqn:E; intros [= <-].
    now apply (IH l).
Qed.

Lemma lines_from_length input : forall cur,
  (length (lines_from cur input) <= length input)%nat.
Proof.
  induction input as [|b input IH]; intros cur; simpl; [lia|].
  destruct (Byte.eqb b newline); simpl.
  - specialize (IH []). lia.
  - specialize (IH (cur ++ [b])). lia.
Qed.

(** ** [strings.Contains] finds substrings *)

Lemma prefix_app sub : forall s, String.prefix sub s = true <-> exists b, s = sub +:+ b.
Proof.
  induction sub as [|c sub IH]; intros s.
  - split; [|now destruct s]. intros _. now exists s.
  - destruct s as [|d s]; simpl.
    + split; [discriminate|]. intros [b Hb]. discriminate.
    + destruct (ascii_dec c d) as [->|Hne].
      * rewrite IH. split; intros [b Hb]; exists b.
        -- change (String d sub +:+ b) with (String d (sub +:+ b)). now rewrite Hb.
        -- change (String d sub +:+ b) with (String d (sub +:+ b)) in Hb. congruence.
      * split; [discriminate|]. intros [b Hb]. change (String c sub +:+ b) with (String c (sub +:+ b)) in Hb. congruence.
Qed.

Lemma strings_Contains_spec sub : forall s,
  strings_Contains s sub = true <-> exists a b, s = a +:+ sub +:+ b.
Proof.
  induction s as [|c s IH].
  - change (strings_Contains EmptyString sub)
      with (String.prefix sub EmptyString || false).
    rewrite orb_false_r, prefix_app. split.
    + intros [b Hb]. now exists EmptyString, b.
    + intros (a & b & H). destruct a; [now exists b|discriminate].
  - change (strings_Contains (String c s) sub)
      with (String.prefix sub (String c s) || strings_Contains s sub).
    rewrite orb_true_iff, prefix_app, IH. split.
    + intros [[b Hb]|(a & b & H)].
      * now exists EmptyString, b.
      * exists (String c a), b. change (String c a +:+ sub +:+ b) with (String c (a +:+ sub +:+ b)). now rewrite H.
    + intros (a & b & H). destruct a as [|c' a].
      * left. now exists b.
      * right. exists a, b. change (String c' a +:+ sub +:+ b) with (String c' (a +:+ sub +:+ b)) in H. congruence.
Qed.

Lemma omap_length_le {A B} (f : A -> option B) (l : list A) :
  (length (omap f l) <= length l)%nat.
Proof.
  induction l as [|a l IH]; [simpl; lia|].
  change (omap f (a :: l))
    with (match f a with Some y => y :: omap f l | None => omap f l end).
  destruct (f a); simpl; lia.
Qed.

Section DecoderProperties.

Variable Unmarshal_JobResult : list Byte.byte -> option JobResult.
Variable Unmarshal_s5Error : list Byte.byte -> option string.

Lemma process_lines_reconcile lines : forall st,
  fold_left (process_line Unmarshal_JobResult) lines st
  = reconcile (omap Unmarshal_JobResult lines) st.
Proof.
  induction lines as [|l lines IH]; intros st; [reflexivity|].
  simpl. rewrite IH. unfold process_line.
  destruct (Unmarshal_JobResult l); reflexivity.
Qed.

Lemma read_loop_lines input last st :
  read_loop Unmarshal_JobResult input last st
  = (fold_left (process_line Unmarshal_JobResult) (complete_lines input) st,
     read_end_error last).
Proof.
  funelim (read_loop Unmarshal_JobResult input last st).
  - match goal with IH : read_loop _ _ _ _ = (_, _) |- _ => rewrite IH end.
    unfold complete_lines. now rewrite (ReadBytes_line _ _ _ [] Heq).
  - unfold complete_lines.
    match goal with E : ReadBytes _ _ = (_, None) |- _ =>
      rewrite (ReadBytes_end _ _ [] E) end.
    now destruct last0.
Qed.

Lemma parseAndCleanup_records fs data last :
  parseAndCleanup Unmarshal_JobResult fs (Readable data last)
  = (reconcile_pass fs (records_of Unmarshal_JobResult data), read_end_error last).
Proof.
  unfold parseAndCleanup. rewrite read_loop_lines, process_lines_reconcile.
  reflexivity.
Qed.

Lemma records_of_length data :
  len (records_of Unmarshal_JobResult data) <= len data.
Proof.
  unfold records_of, complete_lines, len.
  pose proof (lines_from_length data []) as H1.
  pose proof (omap_length_le Unmarshal_JobResult (lines_from [] data)) as H2.
  lia.
Qed.

Lemma lines_from_no_newline frag : forall cur,
  newline ∉ frag -> lines_from cur frag = [].
Proof.
  induction frag as [|b frag IH]; intros cur Hn; [reflexivity|].
  simpl. destruct (Byte.eqb b newline) eqn:E.
  - apply Byte.byte_dec_bl in E. subst b. exfalso. apply Hn, list_elem_of_here.
  - apply IH. intros H. apply Hn. now apply list_elem_of_further.
Qed.

Lemma lines_from_app_fragment pre frag : forall cur,
  newline ∉ frag -> lines_from cur (pre ++ frag) = lines_from cur pre.
Proof.
  induction pre as [|b pre IH]; intros cur Hn.
  - now apply lines_from_no_newline.
  - simpl. destruct (Byte.eqb b newline); now rewrite IH.
Qed.

(** C2. The summary that [parseAndCleanup] produces satisfies
    [FilesDeleted + len(FilesFailed) = FilesTransferred], for every decoder,
    file system and sink file; and every actionable record is counted as
    transferred and then either counted as deleted (the removal succeeded)
    or appended to the failed list (the removal failed), one of the two. *)
Theorem deleted_plus_failed_is_transferred
    (fs : gmap string bool) (jsonOutputFile : file_view) :
  file_fits jsonOutputFile ->
  (FilesDeleted (snd (fst (parseAndCleanup Unmarshal_JobResult fs jsonOutputFile)))
   + len (FilesFailed (snd (fst (parseAndCleanup Unmarshal_JobResult fs jsonOutputFile))))
   = FilesTransferred (snd (fst (parseAndCleanup Unmarshal_JobResult fs jsonOutputFile))))
  /\ forall fs0 s r, actionable r = true ->
       FilesTransferred (snd (reconcile_record (fs0, s) r))
       = int_add (FilesTransferred s) 1
       /\ ((fs0 !! Source r = Some true
            /\ FilesDeleted (snd (reconcile_record (fs0, s) r))
               = int_add (FilesDeleted s) 1
            /\ FilesFailed (snd (reconcile_record (fs0, s) r)) = FilesFailed s)
           \/ (fs0 !! Source r <> Some true
               /\ FilesDeleted (snd (reconcile_record (fs0, s) r)) = FilesDeleted s
               /\ FilesFailed (snd (reconcile_record (fs0, s) r))
                  = FilesFailed s ++ [Source r])).
Proof.
  intros Hfit. split.
  - destruct jsonOutputFile as [| e | data last]; try reflexivity.
    rewrite parseAndCleanup_records. simpl fst. unfold reconcile_pass.
    pose proof (records_of_length data) as Hlen. simpl in Hfit.
    assert (H0 : accounted 0 Summary_zero) by (repeat split; simpl; unfold len; simpl; lia).
    pose proof (accounted_reconcile (records_of Unmarshal_JobResult data) fs
                  Summary_zero 0 H0 ltac:(lia)) as (_ & H & _).
    exact H.
  - intros fs0 s r Ha.
    destruct (reconcile_record_accounts fs0 s r Ha) as (H1 & _ & H2). auto.
Qed.

(** In Go's wrapping arithmetic the equation needs no bound on the sink. *)
Lemma parseAndCleanup_balanced fs jsonOutputFile :
  balanced (snd (fst (parseAndCleanup Unmarshal_JobResult fs jsonOutputFile))).
Proof.
  destruct jsonOutputFile as [| e | data last]; try reflexivity.
  rewrite parseAndCleanup_records. apply balanced_reconcile. reflexivity.
Qed.

(** C10. Bytes after the last newline of the sink are never decoded: a sink
    that ends in a fragment [frag] without newline is parsed exactly as the
    sink without that fragment. The same records are decoded, the summary
    and the error are the same, and the same files are deleted, whatever
    the fragment holds. *)
Theorem unterminated_last_line_is_dropped
    (fs : gmap string bool) (pre frag : list Byte.byte) (last : read_end) :
  newline ∉ frag ->
  records_of Unmarshal_JobResult (pre ++ frag) = records_of Unmarshal_JobResult pre
  /\ parseAndCleanup Unmarshal_JobResult fs (Readable (pre ++ frag) last)
     = parseAndCleanup Unmarshal_JobResult fs (Readable pre last).
Proof.
  intros Hn.
  assert (H : records_of Unmarshal_JobResult (pre ++ frag)
              = records_of Unmarshal_JobResult pre).
  { unfold records_of, complete_lines. now rewrite lines_from_app_fragment. }
  split; [exact H|]. now rewrite !parseAndCleanup_records, H.
Qed.

(** ** The empty-match check *)

Lemma len_zero {A} (l : list A) : (len l =? 0) = true <-> l = [].
Proof.
  unfold len. rewrite Z.eqb_eq. destruct l; simpl; split; intros; try easy; lia.
Qed.

(** [checkForNoMatchError] answers true exactly for a readable, non-empty
    sink that decodes to an error text with the substring. *)
Lemma checkForNoMatchError_true f :
  fst (checkForNoMatchError Unmarshal_s5Error f) = true <->
  exists data s, f = Readable data EOF /\ data <> []
                 /\ Unmarshal_s5Error data = Some s
                 /\ strings_Contains s "no match found for" = true.
Proof.
  split.
  - destruct f as [| e | data [|e]]; simpl; try discriminate.
    destruct (len data =? 0) eqn:El; simpl; [discriminate|].
    destruct (Unmarshal_s5Error data) as [s|] eqn:Eu; simpl; [|discriminate].
    intros H. exists data, s. repeat split; auto.
    intros ->. discriminate.
  - intros (data & s & -> & Hne & Hu & Hc). simpl.
    destruct (len data =? 0) eqn:El.
    + apply len_zero in El. contradiction.
    + now rewrite Hu.
Qed.

Lemma processFiles_run_failed fs err f :
  processFiles Unmarshal_JobResult Unmarshal_s5Error fs None (Some err) f
  = if fst (checkForNoMatchError Unmarshal_s5Error f)
    then (fs, Summary_zero, None)
    else (fs, Summary_zero, Some (ErrRunS5cmd err)).
Proof.
  unfold processFiles.
  now destruct (checkForNoMatchError Unmarshal_s5Error f) as [[|] e].
Qed.

(** C3. When [runS5cmd] fails and the whole sink decodes to an error text
    that contains "no match found for", [processFiles] returns the zero
    summary and no error, and deletes nothing. The decoder is assumed to
    reject the empty input, as [encoding/json] does. *)
Theorem no_match_is_an_empty_run
    (fs : gmap string bool) (err : error) (data : list Byte.byte)
    (s a b : string) :
  Unmarshal_s5Error [] = None ->
  Unmarshal_s5Error data = Some s ->
  s = a +:+ "no match found for" +:+ b ->
  processFiles Unmarshal_JobResult Unmarshal_s5Error fs None (Some err)
               (Readable data EOF)
  = (fs, Summary_zero, None).
Proof.
  intros Hempty Hu Hs. rewrite processFiles_run_failed.
  assert (H : fst (checkForNoMatchError Unmarshal_s5Error (Readable data EOF)) = true).
  { apply checkForNoMatchError_true. exists data, s. repeat split; auto.
    - intros ->. congruence.
    - apply strings_Contains_spec. eauto. }
  now rewrite H.
Qed.

(** C9. When [runS5cmd] fails and the sink is missing, or empty, or does
    not decode, or decodes to an error text without "no match found for"
    (the text is empty when the object has no "error" member),
    [processFiles] returns the zero summary with the error of the run
    wrapped, and deletes nothing. *)
Theorem other_failures_are_hard_failures
    (fs : gmap string bool) (err : error) (jsonOutputFile : file_view) :
  jsonOutputFile = NotExist
  \/ jsonOutputFile = Readable [] EOF
  \/ (exists data, jsonOutputFile = Readable data EOF
                   /\ Unmarshal_s5Error data = None)
  \/ (exists data s, jsonOutputFile = Readable data EOF
                     /\ Unmarshal_s5Error data = Some s
                     /\ strings_Contains s "no match found for" = false) ->
  processFiles Unmarshal_JobResult Unmarshal_s5Error fs None (Some err)
               jsonOutputFile
  = (fs, Summary_zero, Some (ErrRunS5cmd err)).
Proof.
  intros H. rewrite processFiles_run_failed.
  destruct (fst (checkForNoMatchError Unmarshal_s5Error jsonOutputFile)) eqn:E;
    [|reflexivity].
  apply checkForNoMatchError_true in E as (data & s & -> & Hne & Hu & Hc).
  destruct H as [H|[H|[(d & H & Hd)|(d & s' & H & Hd & Hc')]]];
    try discriminate; injection H as ->; congruence.
Qed.

End DecoderProperties.

(** ** The theorems above on sample sinks, with the reference decoder *)

Lemma deleted_plus_failed_is_transferred_witness :
  file_fits (Readable (sample_record ++ [newline]) EOF)
  /\ FilesDeleted
       (snd (fst (parseAndCleanup RefJSON.Unmarshal_JobResult
                    {[ "/tmp/a.gz" := true ]}
                    (Readable (sample_record ++ [newline]) EOF))))
     + len (FilesFailed
              (snd (fst (parseAndCleanup RefJSON.Unmarshal_JobResult
                           {[ "/tmp/a.gz" := true ]}
                           (Readable (sample_record ++ [newline]) EOF)))))
     = FilesTransferred
         (snd (fst (parseAndCleanup RefJSON.Unmarshal_JobResult
                      {[ "/tmp/a.gz" := true ]}
                      (Readable (sample_record ++ [newline]) EOF)))).
Proof.
  assert (Hfit : file_fits (Readable (sample_record ++ [newline]) EOF))
    by (vm_compute; discriminate).
  split; [exact Hfit|].
  exact (proj1 (deleted_plus_failed_is_transferred RefJSON.Unmarshal_JobResult
                  {[ "/tmp/a.gz" := true ]}
                  (Readable (sample_record ++ [newline]) EOF) Hfit)).
Defined.

Lemma unterminated_last_line_is_dropped_witness :
  (newline ∉ sample_record)
  /\ parseAndCleanup RefJSON.Unmarshal_JobResult {[ "/tmp/a.gz" := true ]}
       (Readable ([] ++ sample_record) EOF)
     = parseAndCleanup RefJSON.Unmarshal_JobResult {[ "/tmp/a.gz" := true ]}
         (Readable [] EOF).
Proof.
  assert (Hn : newline ∉ sample_record).
  { intros H. apply list_elem_of_In in H. vm_compute in H.
    repeat (destruct H as [H|H]; [discriminate H|]). exact H. }
  split; [exact Hn|].
  exact (proj2 (unterminated_last_line_is_dropped RefJSON.Unmarshal_JobResult
                  {[ "/tmp/a.gz" := true ]} [] sample_record EOF Hn)).
Defined.

Lemma no_match_is_an_empty_run_witness :
  RefJSON.Unmarshal_s5Error [] = None
  /\ RefJSON.Unmarshal_s5Error sample_no_match = Some "no match found for pattern X"
  /\ processFiles RefJSON.Unmarshal_JobResult RefJSON.Unmarshal_s5Error
       {[ "/tmp/a.gz" := true ]} None (Some (ExitError 1))
       (Readable sample_no_match EOF)
     = ({[ "/tmp/a.gz" := true ]}, Summary_zero, None).
Proof.
  split; [reflexivity|]. split; [vm_compute; reflexivity|].
  apply (no_match_is_an_empty_run RefJSON.Unmarshal_JobResult
           RefJSON.Unmarshal_s5Error {[ "/tmp/a.gz" := true ]} (ExitError 1)
           sample_no_match "no match found for pattern X"
           EmptyString " pattern X").
  - reflexivity.
  - vm_compute. reflexivity.
  - reflexivity.
Defined.

Lemma other_failures_are_hard_failures_witness :
  RefJSON.Unmarshal_s5Error sample_other_error = None
  /\ processFiles RefJSON.Unmarshal_JobResult RefJSON.Unmarshal_s5Error
       {[ "/tmp/a.gz" := true ]} None (Some (ExitError 1))
       (Readable sample_other_error EOF)
     = ({[ "/tmp/a.gz" := true ]}, Summary_zero, Some (ErrRunS5cmd (ExitError 1))).
Proof.
  assert (Hd : RefJSON.Unmarshal_s5Error sample_other_error = None)
    by (vm_compute; reflexivity).
  split; [exact Hd|].
  apply other_failures_are_hard_failures.
  right. right. left. exists sample_other_error. split; [reflexivity | exact Hd].
Defined.

(** ** Accumulation *)










(** ** The scheduler *)

Lemma main_loop_ticks cfg ts : forall st events,
  main_loop cfg st (ticks_of ts ++ events)
  = (fst (run_ticks cfg st ts)
       ++ fst (main_loop cfg (snd (run_ticks cfg st ts)) events),
     snd (main_loop cfg (snd (run_ticks cfg st ts)) events)).
Proof.
  induction ts as [|[result netdataErr] ts IH]; intros st events.
  - simpl. now destruct (main_loop cfg st events).
  - simpl. destruct (on_tick cfg st result netdataErr) as [eff st'].
    rewrite IH. destruct (run_ticks cfg st' ts) as [eff' st''].
    simpl. now rewrite app_assoc.
Qed.

Lemma on_done_final_summary cfg st netdataErr :
  existsb is_final_summary (fst (on_done cfg st netdataErr)) = has_data st.
Proof.
  unfold on_done. simpl.
  destruct (netdataEnabled cfg), (has_data st), netdataErr; reflexivity.
Qed.

Lemma on_done_shutdown_metrics cfg st netdataErr :
  existsb is_shutdown_metrics (fst (on_done cfg st netdataErr))
  = netdataEnabled cfg && has_data st.
Proof.
  unfold on_done. simpl.
  destruct (netdataEnabled cfg), (has_data st), netdataErr; reflexivity.
Qed.

(** C5, as amended. When the loop takes the termination case, after any
    number of ticks, it ends with exit status 0 having logged the shutdown
    lines; on the way it logs the final summary exactly when the
    accumulator shows transferred files or the run counter is positive, and
    calls [sendShutdownMetrics] exactly when, in addition, Netdata is
    enabled. *)
Theorem shutdown_reports_accumulated_data_then_exits_0
    (cfg : Config) (st : LoopState)
    (ts : list (Summary * option error * option error))
    (netdataErr : option error) (rest : list Event) :
  main_loop cfg st (ticks_of ts ++ Done netdataErr :: rest)
  = (fst (run_ticks cfg st ts)
       ++ fst (on_done cfg (snd (run_ticks cfg st ts)) netdataErr),
     inr 0)
  /\ forall st',
       existsb is_final_summary (fst (on_done cfg st' netdataErr))
       = ((0 <? FilesTransferred (accumulatedSummary st')) || (0 <? runCounter st'))
       /\ existsb is_shutdown_metrics (fst (on_done cfg st' netdataErr))
          = netdataEnabled cfg
            && ((0 <? FilesTransferred (accumulatedSummary st')) || (0 <? runCounter st'))
       /\ head (fst (on_done cfg st' netdataErr)) = Some LogShutdownSignal
       /\ last (fst (on_done cfg st' netdataErr)) = Some LogShutdownComplete.
Proof.
  split.
  - rewrite main_loop_ticks. reflexivity.
  - intros st'. rewrite on_done_final_summary, on_done_shutdown_metrics.
    repeat split.
    unfold on_done. simpl.
    destruct (netdataEnabled cfg), (has_data st'), netdataErr; reflexivity.
Qed.

(** C5 as stated fails: a shutdown before any run, Netdata enabled, gives
    the two shutdown lines and no report. *)
Lemma shutdown_without_data_reports_nothing :
  main_loop (mkConfig true 60) LoopState_init [Done None]
  = ([LogShutdownSignal; LogShutdownComplete], inr 0).
Proof. reflexivity. Qed.

(** [runsPerLog] is [max 1 (floor (window / interval))]. *)
Lemma runsPerLog_of_max window interval :
  0 <= window <= 2 ^ 63 - 1 -> 0 < interval ->
  runsPerLog_of window interval = Some (Z.max 1 (window / interval)).
Proof.
  intros Hw Hi. unfold runsPerLog_of, intSize.
  destruct (Z.eqb_spec interval 0) as [->|_]; [lia|].
  rewrite Z.quot_div_nonneg by lia.
  assert (0 <= window / interval <= window).
  { split; [apply Z.div_pos; lia|].
    apply Z.div_le_upper_bound; [lia|]. nia. }
  rewrite !wrap_small by (try rewrite wrap_small; lia).
  f_equal. destruct (Z.ltb_spec (window / interval) 1); lia.
Qed.

Lemma on_tick_state cfg st result netdataErr :
  1 <= runsPerLog cfg <= int_max -> 0 <= runCounter st < runsPerLog cfg ->
  snd (on_tick cfg st result netdataErr)
  = if (runCounter st + 1) mod runsPerLog cfg =? 0
    then LoopState_init
    else mkLoopState (accumulate (accumulatedSummary st) (fst result))
                     (runCounter st + 1).
Proof.
  intros HN Hc. unfold on_tick. destruct result as [summary err].
  rewrite int_add_small
    by (unfold in_int, int_min, int_max, intSize in *; lia).
  destruct (Z.leb_spec (runsPerLog cfg) (runCounter st + 1)) as [Hle|Hlt]; simpl.
  - assert (runCounter st + 1 = runsPerLog cfg) as -> by lia.
    now rewrite Z_mod_same_full.
  - rewrite Z.mod_small by lia.
    destruct (Z.eqb_spec (runCounter st + 1) 0); [lia|reflexivity].
Qed.

Lemma on_tick_report cfg st result netdataErr :
  1 <= runsPerLog cfg <= int_max -> 0 <= runCounter st < runsPerLog cfg ->
  existsb is_periodic_summary (fst (on_tick cfg st result netdataErr))
  = ((runCounter st + 1) mod runsPerLog cfg =? 0)
    && (0 <? FilesTransferred (accumulate (accumulatedSummary st) (fst result))).
Proof.
  intros HN Hc. unfold on_tick. destruct result as [summary err].
  rewrite int_add_small
    by (unfold in_int, int_min, int_max, intSize in *; lia).
  assert (Hpre : forall tail,
            existsb is_periodic_summary
              (match err with Some e => [LogProcessError e] | None => [] end
               ++ (if netdataEnabled cfg
                   then CallSendToNetdata summary 1
                          :: match netdataErr with
                             | Some e => [LogNetdataError e]
                             | None => []
                             end
                   else []) ++ tail)
            = existsb is_periodic_summary tail).
  { intros tail. destruct err, (netdataEnabled cfg), netdataErr; reflexivity. }
  destruct (Z.leb_spec (runsPerLog cfg) (runCounter st + 1)) as [Hle|Hlt]; simpl fst.
  - assert (runCounter st + 1 = runsPerLog cfg) as -> by lia.
    rewrite Z_mod_same_full, Hpre. simpl.
    now destruct (0 <? int_add (FilesTransferred (accumulatedSummary st))
                               (FilesTransferred summary)).
  - rewrite Z.mod_small by lia.
    destruct (Z.eqb_spec (runCounter st + 1) 0); [lia|].
    specialize (Hpre []). rewrite app_nil_r in Hpre. now rewrite Hpre.
Qed.

Lemma run_ticks_counter cfg ts : forall st,
  1 <= runsPerLog cfg <= int_max -> 0 <= runCounter st < runsPerLog cfg ->
  runCounter (snd (run_ticks cfg st ts))
  = (runCounter st + len ts) mod runsPerLog cfg.
Proof.
  induction ts as [|[result netdataErr] ts IH]; intros st HN Hc.
  - unfold len. simpl. rewrite Z.add_0_r, Z.mod_small; [reflexivity | lia].
  - simpl run_ticks.
    pose proof (on_tick_state cfg st result netdataErr HN Hc) as Hst.
    destruct (on_tick cfg st result netdataErr) as [eff st']. simpl in Hst.
    specialize (IH st' HN).
    destruct (run_ticks cfg st' ts) as [eff' st'']. simpl in IH |- *.
    assert (Hl : len ((result, netdataErr) :: ts) = 1 + len ts)
      by (unfold len; simpl length; lia).
    rewrite Hl.
    assert (Hc' : runCounter st' = (runCounter st + 1) mod runsPerLog cfg).
    { subst st'. destruct (Z.eqb_spec ((runCounter st + 1) mod runsPerLog cfg) 0) as [E|E].
      - now rewrite E.
      - simpl. destruct (Z.eq_dec (runCounter st + 1) (runsPerLog cfg)) as [E'|E'].
        + rewrite E', Z_mod_same_full in E. contradiction.
        + rewrite Z.mod_small; lia. }
    rewrite IH.
    + rewrite Hc', Zplus_mod_idemp_l. f_equal. lia.
    + rewrite Hc'. apply Z.mod_pos_bound. lia.
Qed.

(** C6, as amended. With [N = max 1 (floor (window / interval))], the loop
    closes a window at every tick whose number is a multiple of [N] and at
    no other: at such a tick the run counter and the accumulated summary
    are reset to zero, and the summary line is logged just before, if the
    accumulated summary shows transferred files; at any other tick the
    result is accumulated, the counter goes up by one and no summary line
    is logged. *)
Theorem window_closes_every_N_ticks
    (window interval : Z) (cfg : Config)
    (ts : list (Summary * option error * option error))
    (result : Summary * option error) (netdataErr : option error) :
  0 <= window <= 2 ^ 63 - 1 -> 0 < interval ->
  runsPerLog_of window interval = Some (runsPerLog cfg) ->
  runsPerLog cfg = Z.max 1 (window / interval)
  /\ runCounter (snd (run_ticks cfg LoopState_init ts))
     = len ts mod Z.max 1 (window / interval)
  /\ snd (on_tick cfg (snd (run_ticks cfg LoopState_init ts)) result netdataErr)
     = (if (len ts + 1) mod Z.max 1 (window / interval) =? 0
        then mkLoopState Summary_zero 0
        else mkLoopState
               (accumulate
                  (accumulatedSummary (snd (run_ticks cfg LoopState_init ts)))
                  (fst result))
               (runCounter (snd (run_ticks cfg LoopState_init ts)) + 1))
  /\ existsb is_periodic_summary
       (fst (on_tick cfg (snd (run_ticks cfg LoopState_init ts)) result netdataErr))
     = ((len ts + 1) mod Z.max 1 (window / interval) =? 0)
       && (0 <? FilesTransferred
                  (accumulate
                     (accumulatedSummary (snd (run_ticks cfg LoopState_init ts)))
                     (fst result))).
Proof.
  intros Hw Hi HN.
  rewrite (runsPerLog_of_max _ _ Hw Hi) in HN. injection HN as HN.
  assert (0 <= window / interval <= window).
  { split; [apply Z.div_pos; lia|].
    apply Z.div_le_upper_bound; [lia|]. nia. }
  assert (HN' : 1 <= runsPerLog cfg <= int_max)
    by (unfold int_max, intSize; lia).
  assert (H0 : 0 <= runCounter LoopState_init < runsPerLog cfg) by (simpl; lia).
  pose proof (run_ticks_counter cfg ts LoopState_init HN' H0) as Hc.
  simpl (runCounter LoopState_init) in Hc. rewrite Z.add_0_l in Hc.
  assert (Hb : 0 <= runCounter (snd (run_ticks cfg LoopState_init ts)) < runsPerLog cfg).
  { rewrite Hc. apply Z.mod_pos_bound. lia. }
  assert (Hk : (runCounter (snd (run_ticks cfg LoopState_init ts)) + 1)
               mod runsPerLog cfg = (len ts + 1) mod runsPerLog cfg).
  { rewrite Hc. apply Zplus_mod_idemp_l. }
  rewrite HN.
  split; [reflexivity|]. split; [exact Hc|]. split.
  - rewrite on_tick_state by assumption. now rewrite Hk.
  - rewrite on_tick_report by assumption. now rewrite Hk.
Qed.

Lemma window_closes_every_N_ticks_witness :
  (0 <= loggingInterval <= 2 ^ 63 - 1 /\ 0 < 20000000000
   /\ runsPerLog_of loggingInterval 20000000000 = Some (runsPerLog (mkConfig false 3)))
  /\ snd (on_tick (mkConfig false 3)
            (snd (run_ticks (mkConfig false 3) LoopState_init
                    [(mkSummary 1 1 10 [], None, None);
                     (Summary_zero, None, None)]))
            (Summary_zero, None) None)
     = mkLoopState Summary_zero 0.
Proof.
  assert (Hw : 0 <= loggingInterval <= 2 ^ 63 - 1) by (vm_compute; split; discriminate).
  assert (Hi : 0 < 20000000000) by reflexivity.
  assert (HN : runsPerLog_of loggingInterval 20000000000
               = Some (runsPerLog (mkConfig false 3))) by reflexivity.
  split; [auto|].
  exact (proj1 (proj2 (proj2
           (window_closes_every_N_ticks loggingInterval 20000000000
              (mkConfig false 3)
              [(mkSummary 1 1 10 [], None, None); (Summary_zero, None, None)]
              (Summary_zero, None) None Hw Hi HN)))).
Defined.

(** C6 as stated fails: with a window of one tick, a tick that transferred
    nothing closes the window and logs no summary. *)
Lemma empty_window_logs_no_summary :
  main_setup false loggingInterval = Some (mkConfig false 1)
  /\ on_tick (mkConfig false 1) LoopState_init (Summary_zero, None) None
     = ([], LoopState_init).
Proof. split; reflexivity. Qed.

(** ** The source path *)

Lemma prefix_cons a s1 b s2 :
  String.prefix (String a s1) (String b s2) = Ascii.eqb a b && String.prefix s1 s2.
Proof.
  simpl. destruct (ascii_dec a b) as [->|H].
  - now rewrite Ascii.eqb_refl.
  - apply Ascii.eqb_neq in H. now rewrite H.
Qed.

Lemma prefix_empty s : String.prefix EmptyString s = true.
Proof. now destruct s. Qed.

Lemma prefix_sep s : String.prefix (String Separator EmptyString) s = is_rooted s.
Proof.
  destruct s as [|d s]; [reflexivity|].
  rewrite prefix_cons, prefix_empty, andb_true_r. apply Ascii.eqb_sym.
Qed.

Lemma contains_double_cons c s :
  strings_Contains (String c s) "//"
  = (Ascii.eqb c Separator && is_rooted s) || strings_Contains s "//".
Proof.
  change (strings_Contains (String c s) "//")
    with (String.prefix (String Separator (String Separator EmptyString))
                        (String c s)
          || strings_Contains s "//").
  now rewrite prefix_cons, prefix_sep, (Ascii.eqb_sym Separator c).
Qed.

Lemma sep_free_no_double e : sep_free e = true -> strings_Contains e "//" = false.
Proof.
  induction e as [|c e IH]; [reflexivity|]. simpl sep_free.
  intros [Hc He]%andb_true_iff. rewrite contains_double_cons, (IH He).
  apply negb_true_iff in Hc. now rewrite Hc.
Qed.

Lemma sep_free_not_rooted e : sep_free e = true -> is_rooted e = false.
Proof.
  destruct e as [|c e]; [reflexivity|]. simpl.
  intros [Hc _]%andb_true_iff. now apply negb_true_iff in Hc.
Qed.

Lemma append_sep_no_double e t :
  sep_free e = true -> is_rooted t = false -> strings_Contains t "//" = false ->
  strings_Contains (e +:+ String Separator t) "//" = false.
Proof.
  intros He Ht Hd. induction e as [|c e IH].
  - change (EmptyString +:+ String Separator t) with (String Separator t).
    rewrite contains_double_cons, Ht, Hd. now rewrite andb_false_r.
  - simpl in He. apply andb_true_iff in He as [Hc He].
    change (String c e +:+ String Separator t)
      with (String c (e +:+ String Separator t)).
    rewrite contains_double_cons, (IH He).
    apply negb_true_iff in Hc. now rewrite Hc.
Qed.

Lemma append_not_rooted e t :
  e <> EmptyString -> sep_free e = true -> is_rooted (e +:+ t) = false.
Proof.
  destruct e as [|c e]; [congruence|]. intros _. simpl.
  intros [Hc _]%andb_true_iff. now apply negb_true_iff in Hc.
Qed.

Lemma join_sep_clean l :
  Forall is_elem l ->
  strings_Contains (join_sep l) "//" = false /\ is_rooted (join_sep l) = false.
Proof.
  induction 1 as [|e l [Hne He] Hl [IH1 IH2]]; [split; reflexivity|].
  destruct l as [|e' l].
  - simpl. split; [now apply sep_free_no_double | now apply sep_free_not_rooted].
  - change (join_sep (e :: e' :: l))
      with (e +:+ String Separator (join_sep (e' :: l))).
    split; [now apply append_sep_no_double | now apply append_not_rooted].
Qed.

Lemma split_sep_sep_free s : Forall (fun e => sep_free e = true) (split_sep s).
Proof.
  induction s as [|c s IH]; simpl.
  - constructor; [reflexivity | constructor].
  - destruct (Ascii.eqb c Separator) eqn:Ec.
    + constructor; [reflexivity | exact IH].
    + destruct (split_sep s) as [|h t].
      * constructor; [simpl; now rewrite Ec | constructor].
      * inversion IH; subst. constructor; [simpl; now rewrite Ec | assumption].
Qed.

Lemma clean_elem_elems rooted out e :
  sep_free e = true -> Forall is_elem out -> Forall is_elem (clean_elem rooted out e).
Proof.
  intros He Hout. unfold clean_elem.
  destruct (String.eqb_spec e EmptyString) as [->|Hne]; [exact Hout|].
  destruct (String.eqb e "."); [exact Hout|].
  assert (Hpush : Forall is_elem (e :: out)) by (constructor; [split|]; assumption).
  destruct (String.eqb e "..").
  - destruct out as [|top out'].
    + destruct rooted; [constructor|]. exact Hpush.
    + destruct (String.eqb top ".."); [exact Hpush|]. now inversion Hout.
  - exact Hpush.
Qed.

Lemma fold_clean_elem_elems rooted elems : forall out,
  Forall (fun e => sep_free e = true) elems -> Forall is_elem out ->
  Forall is_elem (fold_left (clean_elem rooted) elems out).
Proof.
  induction elems as [|e elems IH]; intros out He Hout; [exact Hout|].
  inversion He; subst. simpl. apply IH; [assumption|].
  now apply clean_elem_elems.
Qed.



(** *** The join, element by element *)

















(** The path of the README's invocation, and a suffix with two leading
    separators, of which one is stripped and the other collapsed by the
    join. *)
Example source_path_samples :
  srcPath_of "/tmp/" "/**/**/*.gz" = "/tmp/**/**/*.gz"
  /\ srcPath_of "/tmp/" "**/**/*.gz" = "/tmp/**/**/*.gz"
  /\ strip_leading_sep "//x" = "/x"
  /\ srcPath_of "/tmp" "//x" = "/tmp/x"
  /\ srcPath_of "/tmp" "../etc/./x" = "/etc/x".
Proof. repeat split; reflexivity. Qed.

(** ** Sample runs with the reference decoder *)

(** A sink with one successful copy of a file that can be removed, one that
    cannot, and the same record without its newline. *)
Example sample_passes :
  parseAndCleanup RefJSON.Unmarshal_JobResult {[ "/tmp/a.gz" := true ]}
    (Readable (sample_record ++ [newline]) EOF)
  = (∅, mkSummary 1 1 1024 [], None)
  /\ parseAndCleanup RefJSON.Unmarshal_JobResult {[ "/tmp/a.gz" := false ]}
       (Readable (sample_record ++ [newline]) EOF)
     = ({[ "/tmp/a.gz" := false ]}, mkSummary 1 0 1024 ["/tmp/a.gz"], None)
  /\ parseAndCleanup RefJSON.Unmarshal_JobResult {[ "/tmp/a.gz" := true ]}
       (Readable sample_record EOF)
     = ({[ "/tmp/a.gz" := true ]}, Summary_zero, None).
Proof. repeat split; vm_compute; reflexivity. Qed.

(** [main] enters its loop only with a positive interval, and then with
    [runsPerLog = max 1 (floor (one minute / interval))]. *)
Lemma main_setup_spec enabled interval :
  main_setup enabled interval
  = if 0 <? interval
    then Some (mkConfig enabled (Z.max 1 (loggingInterval / interval)))
    else None.
Proof.
  unfold main_setup, NewTicker.
  destruct (Z.ltb_spec 0 interval) as [Hpos|Hneg].
  - rewrite runsPerLog_of_max; [reflexivity | | exact Hpos].
    unfold loggingInterval. lia.
  - now destruct (runsPerLog_of loggingInterval interval).
Qed.

(** * Further properties *)

(** ** What a pass counts *)

Lemma sum_sizes_app (l1 l2 : list Z) :
  fold_right Z.add 0 (l1 ++ l2) = fold_right Z.add 0 l1 + fold_right Z.add 0 l2.
Proof. induction l1 as [|x l1 IH]; simpl; lia. Qed.

Lemma actionable_bytes_snoc rs r :
  actionable_bytes (rs ++ [r])
  = actionable_bytes rs + (if actionable r then Size (Object r) else 0).
Proof.
  unfold actionable_bytes. rewrite List.filter_app, map_app, sum_sizes_app.
  simpl. destruct (actionable r); simpl; lia.
Qed.

Lemma filter_actionable_snoc rs r :
  len (List.filter actionable (rs ++ [r]))
  = len (List.filter actionable rs) + (if actionable r then 1 else 0).
Proof.
  rewrite List.filter_app, len_app. simpl.
  destruct (actionable r); reflexivity.
Qed.

(** X1. The files-transferred count of a pass is the number of actionable
    records, and its byte total is the sum of their sizes, both in Go's
    wrapping arithmetic; neither depends on the file system, that is, on
    whether the removals succeed. *)
Theorem pass_counts_actionable_records_and_bytes
    (fs : gmap string bool) (results : list JobResult) :
  FilesTransferred (snd (reconcile_pass fs results))
  = wrap intSize (len (List.filter actionable results))
  /\ TotalBytes (snd (reconcile_pass fs results))
     = wrap 64 (actionable_bytes results).
Proof.
  unfold reconcile_pass, intSize.
  induction results as [|r rs [IH1 IH2]] using rev_ind; [split; reflexivity|].
  rewrite reconcile_snoc, filter_actionable_snoc, actionable_bytes_snoc.
  destruct (reconcile rs (fs, Summary_zero)) as [fs' s]. simpl in IH1, IH2.
  destruct (actionable r) eqn:Ha.
  - destruct (reconcile_record_accounts fs' s r Ha) as (-> & -> & _).
    unfold int_add, int64_add, intSize. rewrite IH1, IH2, !wrap_add_l.
    split; reflexivity.
  - rewrite (reconcile_record_skip _ _ Ha). simpl. rewrite !Z.add_0_r. auto.
Qed.

(** ** The failed list *)

Lemma reconcile_record_failed_list fs s r :
  FilesFailed (snd (reconcile_record (fs, s) r)) = FilesFailed s
  \/ (actionable r = true /\ fs !! Source r <> Some true
      /\ FilesFailed (snd (reconcile_record (fs, s) r))
         = FilesFailed s ++ [Source r]).
Proof.
  destruct (actionable r) eqn:Ha.
  - destruct (reconcile_record_accounts fs s r Ha)
      as (_ & _ & [(_ & _ & H)|(Hno & _ & H)]); auto.
  - rewrite (reconcile_record_skip _ _ Ha). auto.
Qed.

Lemma confirmed_snoc rs r p :
  confirmed (rs ++ [r]) p <->
  confirmed rs p \/ (actionable r = true /\ Source r = p).
Proof.
  unfold confirmed. split.
  - intros (r' & Hin & Ha & Hs). apply elem_of_app in Hin as [Hin|Hin]; [eauto|].
    apply list_elem_of_singleton in Hin. subst. auto.
  - intros [(r' & Hin & Ha & Hs)|[Ha Hs]].
    + exists r'. split; [apply elem_of_app; auto | auto].
    + exists r. split; [apply elem_of_app; right; apply list_elem_of_singleton; auto | auto].
Qed.

(** X2. The failed-deletion list of a pass names no path without a
    confirming record, and it names every confirmed path that could not be
    removed when the pass began. *)
Theorem failed_list_holds_confirmed_paths
    (fs : gmap string bool) (results : list JobResult) (p : string) :
  (p ∈ FilesFailed (snd (reconcile_pass fs results)) -> confirmed results p)
  /\ (confirmed results p -> fs !! p <> Some true ->
      p ∈ FilesFailed (snd (reconcile_pass fs results))).
Proof.
  unfold reconcile_pass.
  induction results as [|r rs [IH1 IH2]] using rev_ind.
  - split.
    + simpl. intros H. now apply elem_of_nil in H.
    + intros (r & Hin & _). now apply elem_of_nil in Hin.
  - rewrite reconcile_snoc, confirmed_snoc.
    pose proof (reconcile_lookup_Some rs fs Summary_zero p true) as Hmono.
    destruct (reconcile rs (fs, Summary_zero)) as [fs' s].
    cbn [fst snd] in IH1, IH2, Hmono.
    destruct (reconcile_record_failed_list fs' s r) as [H|(Ha & Hno & H)];
      rewrite H.
    + split; [auto|]. intros [Hc|[Ha Hs]] Hp; [auto|].
      exfalso. destruct (reconcile_record_accounts fs' s r Ha)
        as (_ & _ & [(Hok & _)|(_ & _ & H')]).
      * subst p. auto.
      * rewrite H in H'. pose proof (f_equal (@length string) H') as Hl.
        rewrite length_app in Hl. simpl in Hl. lia.
    + split.
      * intros [H'|H']%elem_of_app; [auto|].
        apply list_elem_of_singleton in H'. auto.
      * intros [Hc|[_ Hs]] Hp; apply elem_of_app; [left; auto|].
        right. apply list_elem_of_singleton. auto.
Qed.

Lemma failed_list_holds_confirmed_paths_witness :
  confirmed [mkJobResult "cp" true "/tmp/a.gz" "s3://b/a.gz" (mkJobObject "file" 7)]
            "/tmp/a.gz"
  /\ "/tmp/a.gz" ∈ FilesFailed
       (snd (reconcile_pass ∅
               [mkJobResult "cp" true "/tmp/a.gz" "s3://b/a.gz"
                            (mkJobObject "file" 7)])).
Proof.
  assert (Hc : confirmed
                 [mkJobResult "cp" true "/tmp/a.gz" "s3://b/a.gz"
                              (mkJobObject "file" 7)] "/tmp/a.gz").
  { eexists. split; [apply list_elem_of_here | split; reflexivity]. }
  split; [exact Hc|].
  apply (proj2 (failed_list_holds_confirmed_paths ∅ _ "/tmp/a.gz") Hc).
  rewrite lookup_empty. discriminate.
Defined.

(** ** A confirmed path that cannot be removed *)

Lemma unremovable_path_stays rs fs s p :
  fs !! p <> Some true -> fst (reconcile rs (fs, s)) !! p = fs !! p.
Proof.
  intros Hno. destruct (fst (reconcile rs (fs, s)) !! p) as [b|] eqn:E.
  - symmetry. now apply (reconcile_lookup_Some rs fs s).
  - apply reconcile_lookup_None in E as [E|[E _]]; congruence.
Qed.

Lemma unremovable_confirmed_is_listed fs rs p :
  confirmed rs p -> fs !! p <> Some true ->
  p ∈ FilesFailed (snd (reconcile_pass fs rs)).
Proof.
  unfold reconcile_pass. intros Hc Hno.
  induction rs as [|r rs IH] using rev_ind.
  - destruct Hc as (r & Hin & _). now apply elem_of_nil in Hin.
  - rewrite reconcile_snoc.
    pose proof (unremovable_path_stays rs fs Summary_zero p Hno) as Hstay.
    destruct (reconcile rs (fs, Summary_zero)) as [fs' s].
    cbn [fst snd] in IH, Hstay.
    apply confirmed_snoc in Hc as [Hc|[Ha Hs]].
    + specialize (IH Hc).
      destruct (reconcile_record_failed_list fs' s r) as [H|(_ & _ & H)];
        rewrite H; [exact IH | apply elem_of_app; now left].
    + subst p. rewrite reconcile_record_failed; [|exact Ha|congruence].
      simpl. apply elem_of_app. right. now apply list_elem_of_singleton.
Qed.

(** C1, as amended. During a pass over [rs1 ++ rs2], the file system
    reached once the records [rs1] are processed is that of a pass over
    [rs1] alone, and a path is deleted by then if and only if [rs1] holds a
    record for that exact source path with operation "cp", success true and
    object type "file", and [os.Remove] succeeds on it. With [rs2] empty
    this is the whole pass; no path is deleted before or without such a
    record. A path with such a record that could not be removed when the
    pass began, because it is absent or its removal is refused, is left as
    it was and is listed in the failed deletions. *)
Theorem deleted_iff_confirmed_and_removable
    (fs : gmap string bool) (rs1 rs2 : list JobResult) (p : string) :
  reconcile_pass fs (rs1 ++ rs2) = reconcile rs2 (reconcile_pass fs rs1)
  /\ (deleted fs (fst (reconcile_pass fs rs1)) p <->
      fs !! p = Some true /\
      exists r, r ∈ rs1 /\ Operation r = "cp" /\ Success r = true
                /\ Type_ (Object r) = "file" /\ Source r = p)
  /\ (fs !! p <> Some true ->
      (exists r, r ∈ rs1 /\ Operation r = "cp" /\ Success r = true
                 /\ Type_ (Object r) = "file" /\ Source r = p) ->
      fst (reconcile_pass fs rs1) !! p = fs !! p
      /\ p ∈ FilesFailed (snd (reconcile_pass fs rs1))).
Proof.
  assert (Hconf : confirmed rs1 p <->
          exists r, r ∈ rs1 /\ Operation r = "cp" /\ Success r = true
                    /\ Type_ (Object r) = "file" /\ Source r = p).
  { unfold confirmed. split; intros (r & Hin & H); exists r; split; auto.
    - destruct H as [Ha Hs]. apply actionable_iff in Ha. tauto.
    - rewrite actionable_iff. tauto. }
  split; [apply reconcile_app|]. split.
  - unfold deleted, reconcile_pass. rewrite reconcile_lookup_None, <- Hconf.
    split.
    + intros [[b Hb] [H|H]]; [congruence | exact H].
    + intros [H1 H2]. split; [eauto | auto].
  - intros Hno Hc. apply Hconf in Hc. split.
    + now apply unremovable_path_stays.
    + now apply unremovable_confirmed_is_listed.
Qed.

Lemma deleted_iff_confirmed_and_removable_witness :
  (({[ "/tmp/a.gz" := false ]} : gmap string bool) !! "/tmp/a.gz" <> Some true)
  /\ fst (reconcile_pass {[ "/tmp/a.gz" := false ]}
            [mkJobResult "cp" true "/tmp/a.gz" "s3://b/a.gz"
                         (mkJobObject "file" 1024)]) !! "/tmp/a.gz"
     = ({[ "/tmp/a.gz" := false ]} : gmap string bool) !! "/tmp/a.gz"
  /\ "/tmp/a.gz" ∈ FilesFailed
       (snd (reconcile_pass {[ "/tmp/a.gz" := false ]}
               [mkJobResult "cp" true "/tmp/a.gz" "s3://b/a.gz"
                            (mkJobObject "file" 1024)])).
Proof.
  assert (Hno : ({[ "/tmp/a.gz" := false ]} : gmap string bool) !! "/tmp/a.gz"
                <> Some true) by (vm_compute; discriminate).
  split; [exact Hno|].
  apply (proj2 (proj2 (deleted_iff_confirmed_and_removable
                         {[ "/tmp/a.gz" := false ]}
                         [mkJobResult "cp" true "/tmp/a.gz" "s3://b/a.gz"
                                      (mkJobObject "file" 1024)]
                         [] "/tmp/a.gz")) Hno).
  eexists. split; [apply list_elem_of_here | repeat split; reflexivity].
Defined.

(** X3. A path is removed at most once in a pass: once a record has
    confirmed a path, any further actionable record for the same path is
    counted as transferred, adds its size, fails to delete and is appended
    to the failed list, and the file system stays as it is. *)
Theorem second_confirmation_fails
    (fs : gmap string bool) (rs : list JobResult) (r : JobResult) :
  confirmed rs (Source r) -> actionable r = true ->
  reconcile_pass fs (rs ++ [r])
  = (fst (reconcile_pass fs rs),
     mkSummary
       (int_add (FilesTransferred (snd (reconcile_pass fs rs))) 1)
       (FilesDeleted (snd (reconcile_pass fs rs)))
       (int64_add (TotalBytes (snd (reconcile_pass fs rs))) (Size (Object r)))
       (FilesFailed (snd (reconcile_pass fs rs)) ++ [Source r])).
Proof.
  intros Hc Ha. unfold reconcile_pass. rewrite reconcile_snoc.
  pose proof (reconcile_lookup_None rs fs Summary_zero (Source r)) as Hnone.
  pose proof (reconcile_lookup_Some rs fs Summary_zero (Source r) true) as Hsome.
  destruct (reconcile rs (fs, Summary_zero)) as [fs' s].
  cbn [fst snd] in *.
  apply reconcile_record_failed; [exact Ha|].
  intros Hok. specialize (Hsome Hok).
  assert (fs' !! Source r = None) by (apply Hnone; auto). congruence.
Qed.

Lemma second_confirmation_fails_witness :
  confirmed [mkJobResult "cp" true "/tmp/a.gz" "s3://b/a.gz" (mkJobObject "file" 7)]
            "/tmp/a.gz"
  /\ reconcile_pass {[ "/tmp/a.gz" := true ]}
       ([mkJobResult "cp" true "/tmp/a.gz" "s3://b/a.gz" (mkJobObject "file" 7)]
        ++ [mkJobResult "cp" true "/tmp/a.gz" "s3://b/a.gz" (mkJobObject "file" 7)])
     = (∅, mkSummary 2 1 14 ["/tmp/a.gz"]).
Proof.
  assert (Hc : confirmed
                 [mkJobResult "cp" true "/tmp/a.gz" "s3://b/a.gz"
                              (mkJobObject "file" 7)] "/tmp/a.gz").
  { eexists. split; [apply list_elem_of_here | split; reflexivity]. }
  split; [exact Hc|].
  rewrite (second_confirmation_fails {[ "/tmp/a.gz" := true ]} _
             (mkJobResult "cp" true "/tmp/a.gz" "s3://b/a.gz" (mkJobObject "file" 7))
             Hc eq_refl).
  vm_compute. reflexivity.
Defined.

(** ** Deleted files and the file system *)

Lemma reconcile_removed_count rs : forall fs s n,
  0 <= FilesDeleted s <= n -> n + len rs <= int_max ->
  Z.of_nat (size fs) + FilesDeleted s
  = Z.of_nat (size (fst (reconcile rs (fs, s))))
    + FilesDeleted (snd (reconcile rs (fs, s)))
  /\ FilesDeleted (snd (reconcile rs (fs, s))) <= n + len rs.
Proof.
  induction rs as [|r rs IH]; intros fs s n Hs Hmax.
  - simpl. unfold len. simpl. lia.
  - rewrite reconcile_cons.
    assert (Hl : len (r :: rs) = 1 + len rs) by (unfold len; simpl length; lia).
    assert (0 <= len rs) by (unfold len; lia).
    rewrite Hl in *.
    assert (Hstep :
      Z.of_nat (size fs) + FilesDeleted s
      = Z.of_nat (size (fst (reconcile_record (fs, s) r)))
        + FilesDeleted (snd (reconcile_record (fs, s) r))
      /\ 0 <= FilesDeleted (snd (reconcile_record (fs, s) r)) <= n + 1).
    { destruct (actionable r) eqn:Ha.
      - destruct (decide (fs !! Source r = Some true)) as [Hok|Hno].
        + rewrite (reconcile_record_deleted _ _ _ Ha Hok). simpl.
          rewrite int_add_small
            by (unfold in_int, int_min, int_max, intSize in *; lia).
          rewrite map_size_delete_Some by (rewrite Hok; eauto).
          assert (size fs <> 0%nat).
          { intros Hz. apply map_size_empty_inv in Hz. subst fs.
            rewrite lookup_empty in Hok. discriminate. }
          lia.
        + rewrite (reconcile_record_failed _ _ _ Ha Hno). simpl. lia.
      - rewrite (reconcile_record_skip _ _ Ha). simpl. lia. }
    destruct (reconcile_record (fs, s) r) as [fs1 s1]. simpl in Hstep.
    destruct Hstep as [Hsz Hb].
    destruct (IH fs1 s1 (n + 1) Hb ltac:(lia)) as [IH1 IH2].
    split; lia.
Qed.

(** ** The line reader *)

Lemma not_elem_of_snoc (cur : list Byte.byte) b :
  newline ∉ cur -> b <> newline -> newline ∉ cur ++ [b].
Proof.
  intros Hc Hb [H|H]%elem_of_app; [auto|].
  apply list_elem_of_singleton in H. auto.
Qed.

Lemma lines_from_partition input : forall cur,
  newline ∉ cur ->
  Forall is_line (lines_from cur input)
  /\ exists frag, cur ++ input = concat (lines_from cur input) ++ frag
                  /\ newline ∉ frag.
Proof.
  induction input as [|b input IH]; intros cur Hc.
  - simpl. split; [constructor|]. exists cur. now rewrite app_nil_r.
  - simpl. destruct (Byte.eqb b newline) eqn:E.
    + apply Byte.byte_dec_bl in E. subst b.
      destruct (IH [] ltac:(apply not_elem_of_nil)) as [Hl (frag & Hf & Hn)].
      split.
      * constructor; [now exists cur | exact Hl].
      * exists frag. split; [|exact Hn]. simpl in Hf. simpl.
        rewrite <- !app_assoc. simpl. now rewrite <- Hf.
    + apply Byte.eqb_false in E.
      destruct (IH (cur ++ [b]) (not_elem_of_snoc _ _ Hc E)) as [Hl (frag & Hf & Hn)].
      split; [exact Hl|]. exists frag. split; [|exact Hn].
      rewrite <- Hf, <- app_assoc. reflexivity.
Qed.

(** X4. The line reader loses and invents nothing: the lines it hands to
    the decoder, put end to end, are the sink up to its last newline; each
    of them holds exactly one newline, as its last byte; and what is left
    over holds none. *)
Theorem complete_lines_partition (data : list Byte.byte) :
  Forall is_line (complete_lines data)
  /\ exists frag, data = concat (complete_lines data) ++ frag /\ newline ∉ frag.
Proof. apply (lines_from_partition data []), not_elem_of_nil. Qed.

Lemma lines_from_app_terminated d d2 : forall cur,
  lines_from cur ((d ++ [newline]) ++ d2)
  = lines_from cur (d ++ [newline]) ++ lines_from [] d2.
Proof.
  induction d as [|b d IH]; intros cur; simpl.
  - reflexivity.
  - destruct (Byte.eqb b newline); simpl; now rewrite IH.
Qed.

Lemma complete_lines_app d1 d2 :
  terminated d1 ->
  complete_lines (d1 ++ d2) = complete_lines d1 ++ complete_lines d2.
Proof.
  intros [->|[d ->]]; [reflexivity|]. apply lines_from_app_terminated.
Qed.

Lemma lines_from_one_line body : forall cur,
  newline ∉ body -> lines_from cur (body ++ [newline]) = [cur ++ body ++ [newline]].
Proof.
  induction body as [|b body IH]; intros cur Hn; simpl.
  - reflexivity.
  - destruct (Byte.eqb b newline) eqn:E.
    + apply Byte.byte_dec_bl in E. subst b. exfalso. apply Hn, list_elem_of_here.
    + rewrite IH, <- app_assoc; [reflexivity|].
      intros H. apply Hn. now apply list_elem_of_further.
Qed.

Section MoreDecoderProperties.

Variable Unmarshal_JobResult : list Byte.byte -> option JobResult.
Variable Unmarshal_s5Error : list Byte.byte -> option string.

Lemma records_of_app d1 d2 :
  terminated d1 ->
  records_of Unmarshal_JobResult (d1 ++ d2)
  = records_of Unmarshal_JobResult d1 ++ records_of Unmarshal_JobResult d2.
Proof.
  intros H. unfold records_of. now rewrite complete_lines_app, omap_app.
Qed.

(** X5. Reading is incremental: after a prefix of complete lines the loop
    is in the state it reaches on that prefix alone, and goes on from there
    with the rest of the sink. *)
Theorem read_loop_resumes_after_complete_lines
    (d1 d2 : list Byte.byte) (last : read_end) (st : gmap string bool * Summary) :
  terminated d1 ->
  read_loop Unmarshal_JobResult (d1 ++ d2) last st
  = read_loop Unmarshal_JobResult d2 last
      (fst (read_loop Unmarshal_JobResult d1 EOF st)).
Proof.
  intros H. rewrite !read_loop_lines, complete_lines_app by exact H.
  now rewrite fold_left_app.
Qed.

(** X6. A line that the decoder rejects is skipped without a trace: the
    sink with such a line between complete lines is parsed exactly as the
    sink without it. *)
Theorem undecodable_line_is_skipped
    (fs : gmap string bool) (d1 body d2 : list Byte.byte) (last : read_end) :
  terminated d1 -> newline ∉ body ->
  Unmarshal_JobResult (body ++ [newline]) = None ->
  parseAndCleanup Unmarshal_JobResult fs
    (Readable (d1 ++ (body ++ [newline]) ++ d2) last)
  = parseAndCleanup Unmarshal_JobResult fs (Readable (d1 ++ d2) last).
Proof.
  intros Ht Hn Hu. rewrite !parseAndCleanup_records. f_equal. f_equal.
  rewrite (records_of_app d1 ((body ++ [newline]) ++ d2) Ht).
  rewrite (records_of_app (body ++ [newline]) d2)
    by (right; now exists body).
  rewrite (records_of_app d1 d2 Ht).
  replace (records_of Unmarshal_JobResult (body ++ [newline])) with (@nil JobResult);
    [reflexivity|].
  unfold records_of, complete_lines. rewrite lines_from_one_line by exact Hn.
  simpl. now rewrite Hu.
Qed.

(** ** [processFiles] *)

Lemma reconcile_submap rs fs s : fst (reconcile rs (fs, s)) ⊆ fs.
Proof.
  apply map_subseteq_spec. intros p b. apply reconcile_lookup_Some.
Qed.

Lemma parseAndCleanup_submap fs f :
  fst (fst (parseAndCleanup Unmarshal_JobResult fs f)) ⊆ fs.
Proof.
  destruct f as [| e | data last]; try reflexivity.
  rewrite parseAndCleanup_records. apply reconcile_submap.
Qed.

(** X7. [processFiles] only ever removes entries of the local file system:
    what it leaves is a part of what was there, with the same flags; and
    when the job id or the run of the tool fails it removes nothing. *)
Theorem processFiles_only_removes
    (fs : gmap string bool) (uuidErr runErr : option error) (f : file_view) :
  fst (fst (processFiles Unmarshal_JobResult Unmarshal_s5Error fs uuidErr runErr f))
    ⊆ fs
  /\ (is_Some uuidErr \/ is_Some runErr ->
      fst (fst (processFiles Unmarshal_JobResult Unmarshal_s5Error fs uuidErr runErr f))
      = fs).
Proof.
  unfold processFiles. destruct uuidErr as [e|]; [split; reflexivity|].
  destruct runErr as [e|].
  - destruct (checkForNoMatchError Unmarshal_s5Error f) as [[|] e'];
      split; reflexivity.
  - pose proof (parseAndCleanup_submap fs f) as H.
    destruct (parseAndCleanup Unmarshal_JobResult fs f) as [[fs' s] [e|]];
      (split; [exact H|]); intros [[? [=]]|[? [=]]].
Qed.

(** X8. Whenever [processFiles] returns an error its summary is all zero.
    That includes a read error in the middle of the sink: the files of the
    records read before it are removed all the same, and none of them is
    counted. *)
Theorem processFiles_error_means_zero_summary
    (fs : gmap string bool) (uuidErr runErr : option error) (f : file_view) :
  (is_Some (snd (processFiles Unmarshal_JobResult Unmarshal_s5Error fs uuidErr runErr f))
   -> snd (fst (processFiles Unmarshal_JobResult Unmarshal_s5Error fs uuidErr runErr f))
      = Summary_zero)
  /\ forall data e,
       processFiles Unmarshal_JobResult Unmarshal_s5Error fs None None
                    (Readable data (Failing e))
       = (fst (reconcile_pass fs (records_of Unmarshal_JobResult data)),
          Summary_zero, Some (ErrParseCleanup (ErrReadResult e))).
Proof.
  split.
  - unfold processFiles. destruct uuidErr as [e|]; [reflexivity|].
    destruct runErr as [e|].
    + destruct (checkForNoMatchError Unmarshal_s5Error f) as [[|] e']; reflexivity.
    + destruct (parseAndCleanup Unmarshal_JobResult fs f) as [[fs' s] [e|]];
        [reflexivity|]. intros [? [=]].
  - intros data e. unfold processFiles. rewrite parseAndCleanup_records.
    simpl. now destruct (reconcile_pass fs (records_of Unmarshal_JobResult data)).
Qed.

(** X9. After a failed run of the tool, [processFiles] returns no error
    exactly when the sink can be read to its end, is not empty, decodes,
    and its error text contains "no match found for"; in every other case
    it returns the error of the run, wrapped, and whatever error the check
    of the sink met is dropped. *)
Theorem failed_run_outcome
    (fs : gmap string bool) (err : error) (f : file_view) :
  (snd (processFiles Unmarshal_JobResult Unmarshal_s5Error fs None (Some err) f)
   = None
   \/ snd (processFiles Unmarshal_JobResult Unmarshal_s5Error fs None (Some err) f)
      = Some (ErrRunS5cmd err))
  /\ (snd (processFiles Unmarshal_JobResult Unmarshal_s5Error fs None (Some err) f)
      = None
      <-> exists data s, f = Readable data EOF /\ data <> []
                         /\ Unmarshal_s5Error data = Some s
                         /\ strings_Contains s "no match found for" = true).
Proof.
  rewrite processFiles_run_failed, <- checkForNoMatchError_true.
  destruct (fst (checkForNoMatchError Unmarshal_s5Error f)); simpl.
  - split; [now left|]. split; reflexivity.
  - split; [now right|]. split; discriminate.
Qed.

(** X10. The files-deleted count of [parseAndCleanup] is the number of
    entries that left the file system. *)
Theorem deleted_count_is_entries_removed
    (fs : gmap string bool) (f : file_view) :
  file_fits f ->
  Z.of_nat (size fs)
  = Z.of_nat (size (fst (fst (parseAndCleanup Unmarshal_JobResult fs f))))
    + FilesDeleted (snd (fst (parseAndCleanup Unmarshal_JobResult fs f))).
Proof.
  intros Hfit. destruct f as [| e | data last]; [simpl; lia | simpl; lia |].
  rewrite parseAndCleanup_records. simpl fst. unfold reconcile_pass.
  pose proof (records_of_length Unmarshal_JobResult data) as Hlen.
  simpl in Hfit.
  destruct (reconcile_removed_count (records_of Unmarshal_JobResult data) fs
              Summary_zero 0 ltac:(simpl; lia) ltac:(lia)) as [H _].
  simpl in H. lia.
Qed.

End MoreDecoderProperties.

Lemma processFiles_only_removes_witness :
  (is_Some (@None error) \/ is_Some (Some (ExitError 1)))
  /\ fst (fst (processFiles RefJSON.Unmarshal_JobResult RefJSON.Unmarshal_s5Error
                 {[ "/tmp/a.gz" := true ]} None (Some (ExitError 1))
                 (Readable (sample_record ++ [newline]) EOF)))
     = {[ "/tmp/a.gz" := true ]}.
Proof.
  assert (H : is_Some (@None error) \/ is_Some (Some (ExitError 1)))
    by (right; eauto).
  split; [exact H|].
  exact (proj2 (processFiles_only_removes RefJSON.Unmarshal_JobResult
                  RefJSON.Unmarshal_s5Error {[ "/tmp/a.gz" := true ]} None
                  (Some (ExitError 1))
                  (Readable (sample_record ++ [newline]) EOF)) H).
Defined.

Lemma processFiles_error_means_zero_summary_witness :
  is_Some (snd (processFiles RefJSON.Unmarshal_JobResult RefJSON.Unmarshal_s5Error
                  {[ "/tmp/a.gz" := true ]} None None
                  (Readable (sample_record ++ [newline]) (Failing ReadError))))
  /\ snd (fst (processFiles RefJSON.Unmarshal_JobResult RefJSON.Unmarshal_s5Error
                 {[ "/tmp/a.gz" := true ]} None None
                 (Readable (sample_record ++ [newline]) (Failing ReadError))))
     = Summary_zero.
Proof.
  assert (H : is_Some (snd (processFiles RefJSON.Unmarshal_JobResult
                              RefJSON.Unmarshal_s5Error
                              {[ "/tmp/a.gz" := true ]} None None
                              (Readable (sample_record ++ [newline])
                                        (Failing ReadError)))))
    by (vm_compute; eauto).
  split; [exact H|].
  exact (proj1 (processFiles_error_means_zero_summary
                  RefJSON.Unmarshal_JobResult RefJSON.Unmarshal_s5Error
                  {[ "/tmp/a.gz" := true ]} None None
                  (Readable (sample_record ++ [newline]) (Failing ReadError))) H).
Defined.


Lemma undecodable_line_is_skipped_witness :
  (terminated (sample_record ++ [newline])
   /\ (newline ∉ sample_other_error)
   /\ RefJSON.Unmarshal_JobResult (sample_other_error ++ [newline]) = None)
  /\ parseAndCleanup RefJSON.Unmarshal_JobResult {[ "/tmp/a.gz" := true ]}
       (Readable ((sample_record ++ [newline])
                  ++ (sample_other_error ++ [newline]) ++ []) EOF)
     = parseAndCleanup RefJSON.Unmarshal_JobResult {[ "/tmp/a.gz" := true ]}
         (Readable ((sample_record ++ [newline]) ++ []) EOF).
Proof.
  assert (Ht : terminated (sample_record ++ [newline]))
    by (right; now exists sample_record).
  assert (Hn : newline ∉ sample_other_error).
  { intros H. apply list_elem_of_In in H. vm_compute in H.
    repeat (destruct H as [H|H]; [discriminate H|]). exact H. }
  assert (Hu : RefJSON.Unmarshal_JobResult (sample_other_error ++ [newline]) = None)
    by (vm_compute; reflexivity).
  split; [auto|].
  exact (undecodable_line_is_skipped RefJSON.Unmarshal_JobResult
           {[ "/tmp/a.gz" := true ]} (sample_record ++ [newline])
           sample_other_error [] EOF Ht Hn Hu).
Defined.

Lemma read_loop_resumes_after_complete_lines_witness :
  terminated (sample_record ++ [newline])
  /\ read_loop RefJSON.Unmarshal_JobResult
       ((sample_record ++ [newline]) ++ (sample_record ++ [newline])) EOF
       ({[ "/tmp/a.gz" := true ]}, Summary_zero)
     = read_loop RefJSON.Unmarshal_JobResult (sample_record ++ [newline]) EOF
         (fst (read_loop RefJSON.Unmarshal_JobResult (sample_record ++ [newline])
                 EOF ({[ "/tmp/a.gz" := true ]}, Summary_zero))).
Proof.
  assert (Ht : terminated (sample_record ++ [newline]))
    by (right; now exists sample_record).
  split; [exact Ht|].
  exact (read_loop_resumes_after_complete_lines RefJSON.Unmarshal_JobResult
           (sample_record ++ [newline]) (sample_record ++ [newline]) EOF
           ({[ "/tmp/a.gz" := true ]}, Summary_zero) Ht).
Defined.

Lemma deleted_count_is_entries_removed_witness :
  file_fits (Readable (sample_record ++ [newline]) EOF)
  /\ Z.of_nat (size ({[ "/tmp/a.gz" := true; "/tmp/b.gz" := true ]} : gmap string bool))
     = Z.of_nat (size (fst (fst (parseAndCleanup RefJSON.Unmarshal_JobResult
                                   {[ "/tmp/a.gz" := true; "/tmp/b.gz" := true ]}
                                   (Readable (sample_record ++ [newline]) EOF)))))
       + FilesDeleted
           (snd (fst (parseAndCleanup RefJSON.Unmarshal_JobResult
                        {[ "/tmp/a.gz" := true; "/tmp/b.gz" := true ]}
                        (Readable (sample_record ++ [newline]) EOF)))).
Proof.
  assert (Hfit : file_fits (Readable (sample_record ++ [newline]) EOF))
    by (vm_compute; discriminate).
  split; [exact Hfit|].
  exact (deleted_count_is_entries_removed RefJSON.Unmarshal_JobResult
           {[ "/tmp/a.gz" := true; "/tmp/b.gz" := true ]}
           (Readable (sample_record ++ [newline]) EOF) Hfit).
Defined.

(** ** The accumulator between window closes *)

Lemma run_ticks_cons cfg st result netdataErr ts :
  run_ticks cfg st ((result, netdataErr) :: ts)
  = (fst (on_tick cfg st result netdataErr)
       ++ fst (run_ticks cfg (snd (on_tick cfg st result netdataErr)) ts),
     snd (run_ticks cfg (snd (on_tick cfg st result netdataErr)) ts)).
Proof.
  cbn [run_ticks]. destruct (on_tick cfg st result netdataErr) as [eff st'].
  cbn [fst snd]. now destruct (run_ticks cfg st' ts).
Qed.

Lemma run_ticks_snoc cfg ts : forall st result netdataErr,
  run_ticks cfg st (ts ++ [(result, netdataErr)])
  = (fst (run_ticks cfg st ts)
       ++ fst (on_tick cfg (snd (run_ticks cfg st ts)) result netdataErr),
     snd (on_tick cfg (snd (run_ticks cfg st ts)) result netdataErr)).
Proof.
  induction ts as [|[r n] ts IH]; intros st result netdataErr.
  - simpl. destruct (on_tick cfg st result netdataErr). simpl.
    now rewrite app_nil_r.
  - simpl. destruct (on_tick cfg st r n) as [eff st']. rewrite IH.
    destruct (run_ticks cfg st' ts) as [eff' st'']. simpl.
    now rewrite app_assoc.
Qed.

Lemma last_summaries_snoc k ts t :
  (k <= length ts)%nat ->
  last_summaries (S k) (ts ++ [t]) = last_summaries k ts ++ [fst (fst t)].
Proof.
  intros Hk. unfold last_summaries. rewrite length_app. simpl.
  replace (length ts + 1 - S k)%nat with (length ts - k)%nat by lia.
  rewrite drop_app_le by lia. now rewrite map_app.
Qed.

Lemma last_summaries_0 ts : last_summaries 0 ts = [].
Proof.
  unfold last_summaries. rewrite Nat.sub_0_r, drop_all. reflexivity.
Qed.

Lemma run_ticks_accumulator cfg ts :
  1 <= runsPerLog cfg <= int_max ->
  runCounter (snd (run_ticks cfg LoopState_init ts)) = len ts mod runsPerLog cfg
  /\ accumulatedSummary (snd (run_ticks cfg LoopState_init ts))
     = fold_left accumulate
         (last_summaries (Z.to_nat (len ts mod runsPerLog cfg)) ts) Summary_zero.
Proof.
  intros HN.
  assert (Hcnt : forall l, runCounter (snd (run_ticks cfg LoopState_init l))
                           = len l mod runsPerLog cfg).
  { intros l. rewrite (run_ticks_counter cfg l LoopState_init HN); [|simpl; lia].
    simpl. now rewrite Z.add_0_l. }
  split; [apply Hcnt|].
  induction ts as [|[result netdataErr] ts IH] using rev_ind; [reflexivity|].
  assert (Hk : 0 <= len ts mod runsPerLog cfg < runsPerLog cfg)
    by (apply Z.mod_pos_bound; lia).
  assert (Hkl : len ts mod runsPerLog cfg <= len ts).
  { apply Z.mod_le; unfold len; lia. }
  assert (Hlen : len (ts ++ [(result, netdataErr)]) = len ts + 1)
    by (rewrite len_app; reflexivity).
  rewrite run_ticks_snoc. simpl snd.
  rewrite on_tick_state by (rewrite ?Hcnt; assumption).
  rewrite Hcnt, Hlen.
  destruct (Z.eqb_spec ((len ts mod runsPerLog cfg + 1) mod runsPerLog cfg) 0)
    as [E|E].
  - rewrite <- Zplus_mod_idemp_l, E. simpl. now rewrite last_summaries_0.
  - assert (Hlt : len ts mod runsPerLog cfg + 1 < runsPerLog cfg).
    { destruct (Z.eq_dec (len ts mod runsPerLog cfg + 1) (runsPerLog cfg)) as [E'|E'].
      - rewrite E', Z_mod_same_full in E. contradiction.
      - lia. }
    rewrite <- Zplus_mod_idemp_l, (Z.mod_small (_ + 1)) by lia.
    assert (Hnat : (Z.to_nat (len ts mod runsPerLog cfg) <= length ts)%nat).
    { apply Nat2Z.inj_le. rewrite Z2Nat.id by lia. exact Hkl. }
    rewrite Z2Nat.inj_add by lia. change (Z.to_nat 1) with 1%nat.
    rewrite Nat.add_1_r, (last_summaries_snoc _ _ _ Hnat).
    rewrite fold_left_app. simpl. now rewrite IH.
Qed.

(** X11. Between two window closes the accumulator holds exactly the runs
    made since the last close, folded in order, and the run counter their
    number; so a termination request that comes after at least one such run
    logs a final summary with the totals of all of them, the last run
    included, before the loop ends with status 0. *)
Theorem shutdown_reports_every_run_since_last_close
    (cfg : Config) (ts : list (Summary * option error * option error))
    (netdataErr : option error) (rest : list Event) :
  1 <= runsPerLog cfg <= int_max ->
  0 < len ts mod runsPerLog cfg ->
  snd (main_loop cfg LoopState_init (ticks_of ts ++ Done netdataErr :: rest))
  = inr 0
  /\ In (LogFinalSummary
           (FilesTransferred
              (fold_left accumulate
                 (last_summaries (Z.to_nat (len ts mod runsPerLog cfg)) ts)
                 Summary_zero))
           (FilesDeleted
              (fold_left accumulate
                 (last_summaries (Z.to_nat (len ts mod runsPerLog cfg)) ts)
                 Summary_zero))
           (TotalBytes
              (fold_left accumulate
                 (last_summaries (Z.to_nat (len ts mod runsPerLog cfg)) ts)
                 Summary_zero))
           (len (FilesFailed
                   (fold_left accumulate
                      (last_summaries (Z.to_nat (len ts mod runsPerLog cfg)) ts)
                      Summary_zero)))
           (len ts mod runsPerLog cfg))
        (fst (main_loop cfg LoopState_init (ticks_of ts ++ Done netdataErr :: rest))).
Proof.
  intros HN Hpos. rewrite main_loop_ticks.
  destruct (run_ticks_accumulator cfg ts HN) as [Hc Ha].
  split; [reflexivity|]. simpl fst. apply in_or_app. right.
  simpl. unfold on_done. simpl fst.
  assert (Hd : has_data (snd (run_ticks cfg LoopState_init ts)) = true).
  { unfold has_data. rewrite Hc. apply orb_true_iff. right. now apply Z.ltb_lt. }
  rewrite Hd, Hc, Ha.
  destruct (netdataEnabled cfg); simpl; auto.
Qed.

Lemma shutdown_reports_every_run_since_last_close_witness :
  (1 <= runsPerLog (mkConfig false 3) <= int_max
   /\ 0 < len [(mkSummary 1 1 10 [], @None error, @None error);
               (mkSummary 2 1 5 ["/tmp/c.gz"], None, None)]
           mod runsPerLog (mkConfig false 3))
  /\ snd (main_loop (mkConfig false 3) LoopState_init
            (ticks_of [(mkSummary 1 1 10 [], None, None);
                       (mkSummary 2 1 5 ["/tmp/c.gz"], None, None)]
             ++ Done None :: []))
     = inr 0.
Proof.
  assert (HN : 1 <= runsPerLog (mkConfig false 3) <= int_max)
    by (vm_compute; split; discriminate).
  assert (Hp : 0 < len [(mkSummary 1 1 10 [], @None error, @None error);
                        (mkSummary 2 1 5 ["/tmp/c.gz"], None, None)]
                   mod runsPerLog (mkConfig false 3)) by reflexivity.
  split; [auto|].
  exact (proj1 (shutdown_reports_every_run_since_last_close (mkConfig false 3)
                  [(mkSummary 1 1 10 [], None, None);
                   (mkSummary 2 1 5 ["/tmp/c.gz"], None, None)]
                  None [] HN Hp)).
Defined.

(** ** Metrics per tick *)

Lemma on_tick_netdata_calls cfg st result netdataErr :
  List.filter is_netdata_call (fst (on_tick cfg st result netdataErr))
  = if netdataEnabled cfg then [CallSendToNetdata (fst result) 1] else [].
Proof.
  unfold on_tick. destruct result as [summary err].
  destruct (runsPerLog cfg <=? int_add (runCounter st) 1); simpl fst;
    rewrite ?List.filter_app;
    destruct err, (netdataEnabled cfg), netdataErr; simpl;
    repeat match goal with
           | |- context [if ?b then _ else _] => destruct b
           end; reflexivity.
Qed.

(** X12. With Netdata enabled every tick calls [sendToNetdata] once, with
    the summary of that tick alone and a run count of 1, whether the run
    failed or not and whether an earlier call failed or not; with Netdata
    disabled no tick calls it. *)
Theorem one_netdata_call_per_tick
    (cfg : Config) (st : LoopState)
    (ts : list (Summary * option error * option error)) :
  List.filter is_netdata_call (fst (run_ticks cfg st ts))
  = if netdataEnabled cfg
    then map (fun t => CallSendToNetdata (fst (fst t)) 1) ts
    else [].
Proof.
  revert st. induction ts as [|[result netdataErr] ts IH]; intros st.
  - simpl. now destruct (netdataEnabled cfg).
  - rewrite run_ticks_cons. simpl fst.
    rewrite List.filter_app, on_tick_netdata_calls, IH.
    now destruct (netdataEnabled cfg).
Qed.

(** ** Accumulated totals stay balanced *)

Lemma accumulate_balanced a b :
  balanced a -> balanced b -> balanced (accumulate a b).
Proof.
  unfold balanced, accumulate. cbn [FilesTransferred FilesDeleted FilesFailed].
  intros <- <-. rewrite len_app. unfold int_add, intSize.
  rewrite (wrap_add_l (FilesDeleted a + FilesDeleted b)).
  rewrite (wrap_add_l (FilesDeleted a + len (FilesFailed a))), wrap_add_r.
  f_equal. lia.
Qed.

(** X13. If the summary of every run satisfies deleted + failed =
    transferred in Go's arithmetic, so does the accumulator after any
    number of ticks, and with it every periodic and final summary line. *)
Theorem accumulator_stays_balanced
    (cfg : Config) (st : LoopState)
    (ts : list (Summary * option error * option error)) :
  balanced (accumulatedSummary st) ->
  Forall (fun t => balanced (fst (fst t))) ts ->
  balanced (accumulatedSummary (snd (run_ticks cfg st ts))).
Proof.
  intros Hst Hts. revert st Hst.
  induction Hts as [|[[summary err] netdataErr] ts Ht Hts IH]; intros st Hst;
    [exact Hst|].
  rewrite run_ticks_cons. apply IH. unfold on_tick.
  destruct (runsPerLog cfg <=? int_add (runCounter st) 1); simpl.
  - reflexivity.
  - apply accumulate_balanced; [exact Hst | exact Ht].
Qed.

Lemma accumulator_stays_balanced_witness :
  (balanced (accumulatedSummary LoopState_init)
   /\ Forall (fun t : Summary * option error * option error => balanced (fst (fst t)))
        [(mkSummary 2 1 5 ["/tmp/c.gz"], None, None)])
  /\ balanced (accumulatedSummary
                 (snd (run_ticks (mkConfig false 3) LoopState_init
                         [(mkSummary 2 1 5 ["/tmp/c.gz"], None, None)]))).
Proof.
  assert (H0 : balanced (accumulatedSummary LoopState_init)) by reflexivity.
  assert (H1 : Forall (fun t : Summary * option error * option error =>
                         balanced (fst (fst t)))
                 [(mkSummary 2 1 5 ["/tmp/c.gz"], None, None)])
    by (constructor; [reflexivity | constructor]).
  split; [auto|].
  exact (accumulator_stays_balanced (mkConfig false 3) LoopState_init _ H0 H1).
Defined.

(** ** The source path stays relative to the source root *)

Lemma filepath_Clean_rooted path :
  is_rooted (filepath_Clean path) = is_rooted path.
Proof.
  unfold filepath_Clean.
  destruct (String.eqb_spec path EmptyString) as [->|Hne]; [reflexivity|].
  assert (H : Forall is_elem
                (rev (fold_left (clean_elem (is_rooted path)) (split_sep path) []))).
  { apply Forall_rev, fold_clean_elem_elems; [apply split_sep_sep_free | constructor]. }
  apply join_sep_clean in H as [_ H2].
  destruct (is_rooted path) eqn:Er.
  - simpl. unfold Separator. reflexivity.
  - destruct (String.eqb _ EmptyString); [reflexivity | exact H2].
Qed.

(** X14. With a non-empty source root, the source path given to the tool
    is absolute exactly when the source root is: a glob suffix, with or
    without leading separators, never turns a relative root into an
    absolute path. *)
Theorem source_path_rooted_as_root (folderPrefix pathSuffix : string) :
  folderPrefix <> EmptyString ->
  is_rooted (srcPath_of folderPrefix pathSuffix) = is_rooted folderPrefix.
Proof.
  intros Hne. unfold srcPath_of. simpl.
  destruct (String.eqb_spec folderPrefix EmptyString) as [E|_]; [contradiction|].
  rewrite filepath_Clean_rooted.
  destruct folderPrefix as [|c rest]; [contradiction | reflexivity].
Qed.

Lemma source_path_rooted_as_root_witness :
  "data" <> EmptyString
  /\ is_rooted (srcPath_of "data" "//x/../y") = is_rooted "data".
Proof.
  split; [discriminate|].
  apply source_path_rooted_as_root. discriminate.
Defined.

(** ** Configuration *)

Lemma os_Getenv_set env key v :
  env !! key = Some v -> os_Getenv env key = v.
Proof. unfold os_Getenv. now intros ->. Qed.

Lemma eqb_empty_false v : v <> EmptyString -> String.eqb v EmptyString = false.
Proof. intros H. now apply String.eqb_neq. Qed.

(** X15. A variable that is set in the environment to a non-empty text
    overrides the flag: always for a text setting; for a duration when the
    text parses, and otherwise the flag stands; and for a boolean the
    result differs from the flag only when the text is one of "true", "1",
    "yes", "false", "0", "no", spelled exactly so. *)
Theorem environment_overrides_flag
    (env : gmap string string) (envKey envValue : string) :
  env !! envKey = Some envValue -> envValue <> EmptyString ->
  (forall flagValue, getEnvOrFlag env envKey flagValue = envValue)
  /\ (forall ParseDuration flagValue,
        getEnvOrFlagDuration ParseDuration env envKey flagValue
        = default flagValue (ParseDuration envValue))
  /\ (forall flagValue,
        getEnvOrFlagBool env envKey flagValue <> flagValue ->
        In envValue ["true"; "1"; "yes"; "false"; "0"; "no"]).
Proof.
  intros Hset Hne.
  pose proof (os_Getenv_set _ _ _ Hset) as Hg.
  pose proof (eqb_empty_false _ Hne) as He.
  split; [|split].
  - intros flagValue. unfold getEnvOrFlag. now rewrite Hg, He.
  - intros PD flagValue. unfold getEnvOrFlagDuration. rewrite Hg, He. simpl.
    now destruct (PD envValue).
  - intros flagValue. unfold getEnvOrFlagBool. rewrite Hg, He. simpl.
    destruct (String.eqb_spec envValue "true") as [->|_]; [simpl; auto|].
    destruct (String.eqb_spec envValue "1") as [->|_]; [simpl; auto|].
    destruct (String.eqb_spec envValue "yes") as [->|_]; [simpl; auto|].
    destruct (String.eqb_spec envValue "false") as [->|_]; [simpl; auto 6|].
    destruct (String.eqb_spec envValue "0") as [->|_]; [simpl; auto 6|].
    destruct (String.eqb_spec envValue "no") as [->|_]; [simpl; auto 7|].
    simpl. congruence.
Qed.

Lemma environment_overrides_flag_witness :
  (({[ "S5CMD_BINARY" := "/opt/s5cmd" ]} : gmap string string) !! "S5CMD_BINARY"
   = Some "/opt/s5cmd"
   /\ "/opt/s5cmd" <> EmptyString)
  /\ getEnvOrFlag {[ "S5CMD_BINARY" := "/opt/s5cmd" ]} "S5CMD_BINARY" "s5cmd"
     = "/opt/s5cmd".
Proof.
  assert (H1 : ({[ "S5CMD_BINARY" := "/opt/s5cmd" ]} : gmap string string)
               !! "S5CMD_BINARY" = Some "/opt/s5cmd") by reflexivity.
  assert (H2 : "/opt/s5cmd" <> EmptyString) by discriminate.
  split; [auto|].
  exact (proj1 (environment_overrides_flag _ _ _ H1 H2) "s5cmd").
Defined.

(** X16. [main] reaches its loop exactly when the bucket path is not
    empty, a credentials file is named or the three AWS variables are all
    set, and the interval is positive; the loop then runs with
    [runsPerLog = max 1 (one minute / interval)]. An empty bucket path is
    the first thing reported, whatever else is missing, and a panic at the
    start means a zero or negative interval. *)
Theorem main_reaches_loop_iff
    (ParseDuration : string -> option Z) (env : gmap string string)
    (flags : Flag.t) (cfg : Config) :
  (main_start ParseDuration env flags = Running cfg <->
   Actual.S3BucketPath (resolve ParseDuration env flags) <> EmptyString
   /\ (Actual.AwsCredsFile (resolve ParseDuration env flags) <> EmptyString
       \/ Actual.hasAwsEnvCreds (resolve ParseDuration env flags) = true)
   /\ 0 < Actual.ProcessInterval (resolve ParseDuration env flags)
   /\ cfg = mkConfig
              (Actual.NetdataEnabled (resolve ParseDuration env flags))
              (Z.max 1 (loggingInterval
                        / Actual.ProcessInterval (resolve ParseDuration env flags))))
  /\ (main_start ParseDuration env flags = FatalNoBucket <->
      Actual.S3BucketPath (resolve ParseDuration env flags) = EmptyString)
  /\ (main_start ParseDuration env flags = Panics ->
      Actual.ProcessInterval (resolve ParseDuration env flags) <= 0).
Proof.
  unfold main_start. set (a := resolve ParseDuration env flags).
  rewrite main_setup_spec.
  destruct (String.eqb_spec (Actual.S3BucketPath a) EmptyString) as [Eb|Eb].
  { split; [|split].
    - split; [discriminate | intros (H & _); contradiction].
    - tauto.
    - discriminate. }
  destruct (String.eqb_spec (Actual.AwsCredsFile a) EmptyString) as [Ec|Ec];
    destruct (Actual.hasAwsEnvCreds a) eqn:Eh; cbn [andb negb];
    try (split; [|split];
         [ split; [discriminate | intros (_ & [H|H] & _); congruence]
         | split; [discriminate | contradiction]
         | discriminate ]);
    (destruct (Z.ltb_spec 0 (Actual.ProcessInterval a)) as [Hp|Hp];
     (split; [|split]);
     [ split; [intros [= <-]; auto 6 | intros (_ & _ & _ & ->); reflexivity]
     | split; [discriminate | contradiction]
     | discriminate
     | split; [discriminate | intros (_ & _ & H & _); lia]
     | split; [discriminate | contradiction]
     | intros _; exact Hp ]).
Qed.

(** X17. When the three AWS variables are set to non-empty texts the run
    uses them, whatever credentials file or profile is configured: the
    command carries neither, and its environment is the process
    environment followed by the three assignments. *)
Theorem environment_credentials_take_precedence
    (ParseDuration : string -> option Z) (environ : list string)
    (env : gmap string string) (flags : Flag.t) (key secret region : string) :
  env !! "AWS_ACCESS_KEY_ID" = Some key -> key <> EmptyString ->
  env !! "AWS_SECRET_ACCESS_KEY" = Some secret -> secret <> EmptyString ->
  env !! "AWS_DEFAULT_REGION" = Some region -> region <> EmptyString ->
  Actual.hasAwsEnvCreds (resolve ParseDuration env flags) = true
  /\ main_start ParseDuration env flags <> FatalNoCredentials
  /\ Args (tick_command environ env (resolve ParseDuration env flags))
     = ["--json"; "--log"; "info"]
       ++ (if String.eqb (Actual.AwsEndpointURL (resolve ParseDuration env flags))
                         EmptyString
           then []
           else ["--endpoint-url";
                 Actual.AwsEndpointURL (resolve ParseDuration env flags)])
       ++ ["cp";
           srcPath_of (Actual.FolderPrefix (resolve ParseDuration env flags))
                      (Actual.PathSuffix (resolve ParseDuration env flags));
           Actual.S3BucketPath (resolve ParseDuration env flags)]
  /\ Env (tick_command environ env (resolve ParseDuration env flags))
     = environ ++ ["AWS_ACCESS_KEY_ID=" +:+ key;
                   "AWS_SECRET_ACCESS_KEY=" +:+ secret;
                   "AWS_DEFAULT_REGION=" +:+ region].
Proof.
  intros Hk Hk' Hs Hs' Hr Hr'.
  assert (Hh : Actual.hasAwsEnvCreds (resolve ParseDuration env flags) = true).
  { unfold resolve. cbn [Actual.hasAwsEnvCreds].
    rewrite (os_Getenv_set _ _ _ Hk), (os_Getenv_set _ _ _ Hs),
      (os_Getenv_set _ _ _ Hr).
    now rewrite !eqb_empty_false. }
  split; [exact Hh|]. split; [|split].
  - unfold main_start. rewrite Hh, andb_false_r.
    destruct (String.eqb _ EmptyString); [discriminate|].
    now destruct (main_setup _ _).
  - unfold tick_command, runS5cmd_command. rewrite Hh. cbn [Args].
    now destruct (String.eqb _ EmptyString).
  - unfold tick_command, runS5cmd_command. rewrite Hh. cbn [Env].
    now rewrite (os_Getenv_set _ _ _ Hk), (os_Getenv_set _ _ _ Hs),
      (os_Getenv_set _ _ _ Hr).
Qed.

Lemma environment_credentials_take_precedence_witness :
  (({[ "AWS_ACCESS_KEY_ID" := "AKIA"; "AWS_SECRET_ACCESS_KEY" := "secret";
       "AWS_DEFAULT_REGION" := "eu-central-1";
       "AWS_CREDS_FILE" := "/etc/aws/credentials" ]} : gmap string string)
     !! "AWS_ACCESS_KEY_ID" = Some "AKIA")
  /\ Env (tick_command ["HOME=/root"]
            {[ "AWS_ACCESS_KEY_ID" := "AKIA"; "AWS_SECRET_ACCESS_KEY" := "secret";
               "AWS_DEFAULT_REGION" := "eu-central-1";
               "AWS_CREDS_FILE" := "/etc/aws/credentials" ]}
            (resolve (fun _ => None)
               {[ "AWS_ACCESS_KEY_ID" := "AKIA"; "AWS_SECRET_ACCESS_KEY" := "secret";
                  "AWS_DEFAULT_REGION" := "eu-central-1";
                  "AWS_CREDS_FILE" := "/etc/aws/credentials" ]}
               (Flag.mk "/tmp/" "/**/**/*.gz" 1000000000 false "127.0.0.1:8125"
                        "s5cmd" "s3://b/" EmptyString EmptyString "default")))
     = ["HOME=/root"; "AWS_ACCESS_KEY_ID=AKIA"; "AWS_SECRET_ACCESS_KEY=secret";
        "AWS_DEFAULT_REGION=eu-central-1"].
Proof.
  split; [reflexivity|].
  apply (environment_credentials_take_precedence (fun _ => None) ["HOME=/root"]
           _ _ "AKIA" "secret" "eu-central-1");
    (reflexivity || discriminate).
Defined.
